(** * Acontext core: session-message pipeline, renderer, health endpoint

    A shallow embedding of the Python sources

      - [server/core/acontext_core/schema/session/message.py]
        ([STRING_TYPES], [pack_message_line], [MessageBlob.to_string]),
      - [server/core/acontext_core/service/controller/message.py]
        ([process_session_pending_message]),
      - [server/core/acontext_core/service/data/project.py]
        ([get_project_config]),
      - [server/core/api.py] ([health]),

    as computations in a state-and-exception monad over an explicit
    [World] (storage rows, the open transaction, collaborator health, and
    the trace of observable events), followed by the properties the
    specification states about them. *)

From Stdlib Require Import ZArith Ascii DecimalString DecimalPos DecimalZ.
From stdpp Require Import base list strings gmap.

Local Open Scope string_scope.
Local Open Scope list_scope.

(** ** Python values and their textual form *)

(** JSON-like Python values, as they occur in a part's [meta] mapping and
    in a project's [configs] column.  A [dict] keeps insertion order, so it
    is an association list.  Floats are left out. *)
#[warnings="-register-all"]
Inductive pyval : Type :=
  | VNone
  | VBool (b : bool)
  | VInt (z : Z)
  | VStr (s : string)
  | VList (items : list pyval)
  | VDict (items : list (string * pyval)).

Definition pydict : Type := list (string * pyval).

(** [key in d] *)
Fixpoint dict_contains (d : pydict) (key : string) : bool :=
  match d with
  | [] => false
  | (k, _) :: d' => if String.eqb k key then true else dict_contains d' key
  end.

(** [d[key]] on a well-formed dict (keys are unique); [None] is a missing key. *)
Fixpoint dict_lookup (d : pydict) (key : string) : option pyval :=
  match d with
  | [] => None
  | (k, v) :: d' => if String.eqb k key then Some v else dict_lookup d' key
  end.

(** A character of a string is a code point below 256. *)
Definition hex_digit (n : N) : ascii :=
  match n with
  | 0 => "0" | 1 => "1" | 2 => "2" | 3 => "3" | 4 => "4" | 5 => "5"
  | 6 => "6" | 7 => "7" | 8 => "8" | 9 => "9" | 10 => "a" | 11 => "b"
  | 12 => "c" | 13 => "d" | 14 => "e" | _ => "f"
  end%N%char.

Definition is_printable (c : ascii) : bool :=
  let n := N_of_ascii c in
  ((32 <=? n) && (n <? 127) || (161 <=? n) && negb (n =? 173))%N.

(** One character of [repr(s)], inside the quotes [q]. *)
Definition repr_char (q c : ascii) : string :=
  let bs := "\"%char in
  if Ascii.eqb c q || Ascii.eqb c bs then String bs (String c "")
  else if Ascii.eqb c "009" then "\t"
  else if Ascii.eqb c "010" then "\n"
  else if Ascii.eqb c "013" then "\r"
  else if is_printable c then String c ""
  else
    let n := N_of_ascii c in
    String bs (String "x" (String (hex_digit (n / 16)) (String (hex_digit (n mod 16)) ""))).

Fixpoint repr_chars (q : ascii) (s : string) : string :=
  match s with
  | EmptyString => ""
  | String c s' => repr_char q c +:+ repr_chars q s'
  end.

Fixpoint str_contains_char (c : ascii) (s : string) : bool :=
  match s with
  | EmptyString => false
  | String c' s' => Ascii.eqb c c' || str_contains_char c s'
  end.

(** [repr(s)] for a [str]: single quotes, unless the text has a single
    quote and no double quote. *)
Definition str_repr (s : string) : string :=
  let sq := "'"%char in
  let dq := "034"%char in
  let q := if str_contains_char sq s && negb (str_contains_char dq s) then dq else sq in
  String q (repr_chars q s +:+ String q "").

Definition int_repr (z : Z) : string := NilZero.string_of_int (Z.to_int z).

(** [repr(v)] *)
Fixpoint py_repr (v : pyval) : string :=
  match v with
  | VNone => "None"
  | VBool true => "True"
  | VBool false => "False"
  | VInt z => int_repr z
  | VStr s => str_repr s
  | VList items =>
      "[" +:+
      (fix go (l : list pyval) : string :=
         match l with
         | [] => ""
         | x :: l' =>
             match l' with
             | [] => py_repr x
             | _ :: _ => py_repr x +:+ ", " +:+ go l'
             end
         end) items
      +:+ "]"
  | VDict items =>
      "{" +:+
      (fix go (l : list (string * pyval)) : string :=
         match l with
         | [] => ""
         | (k, x) :: l' =>
             match l' with
             | [] => str_repr k +:+ ": " +:+ py_repr x
             | _ :: _ => str_repr k +:+ ": " +:+ py_repr x +:+ ", " +:+ go l'
             end
         end) items
      +:+ "}"
  end.

(** [str(v)], which is what an f-string placeholder [{v}] inserts. *)
Definition py_str (v : pyval) : string :=
  match v with
  | VStr s => s
  | _ => py_repr v
  end.

(** An [Optional[str]] attribute seen as a Python value. *)
Definition of_optional_str (o : option string) : pyval :=
  match o with
  | Some s => VStr s
  | None => VNone
  end.

(** ** Data model *)

(** UUIDs in their canonical textual form. *)
Definition asUUID : Type := string.

(** Modelled from the spec: the [Part] model of [schema/orm], whose
    declaration is not among the sources.  Section 3 gives its kinds and
    payloads; the renderer reads the attributes [type], [text],
    [filename] and [meta], of which only [type] is always present. *)
Record Part : Type := mkPart {
  type : string;
  text : option string;
  filename : option string;
  meta : option pydict
}.

Record MessageBlob : Type := mkMessageBlob {
  message_id : asUUID;
  role : string;
  parts : list Part
}.

(** Modelled from the spec: the [TaskStatus] enum of
    [schema/session/task], not among the sources.  Its members are those of
    section 3; [value] is the stored string, the one the fetch filters by. *)
Inductive TaskStatus : Type := PENDING | RUNNING | COMPLETED | FAILED.

Definition value (s : TaskStatus) : string :=
  match s with
  | PENDING => "pending"
  | RUNNING => "running"
  | COMPLETED => "completed"
  | FAILED => "failed"
  end.

(** Modelled from the spec: the ORM row of a message ([schema/orm], not
    among the sources), with the attributes the controller touches. *)
Module Message.
Record t : Type := mk {
  id : asUUID;
  session_id : asUUID;
  role : string;
  parts : list Part;
  session_task_process_status : string
}.

Definition set_status (v : string) (m : t) : t :=
  {| id := id m; session_id := session_id m; role := role m;
     parts := parts m; session_task_process_status := v |}.
End Message.

(** Modelled from the spec: the ORM row of a project; [configs] is a
    nullable JSON column. *)
Module Project.
Record t : Type := mk {
  id : asUUID;
  configs : option pydict
}.
End Project.

(** Modelled from the spec: [Result] of [schema/result] (section 4.1), a
    success payload or a rejection carrying error descriptions; [unpack]
    returns the pair (payload or nothing, error list). *)
Module Result.
Record t (T : Type) : Type := mk {
  data : option T;
  errors : list string
}.
Arguments mk {T} _ _.
Arguments data {T} _.
Arguments errors {T} _.

Definition resolve {T : Type} (x : T) : t T := mk (Some x) [].
Definition reject {T : Type} (errmsg : string) : t T := mk None [errmsg].
Definition unpack {T : Type} (r : t T) : option T * list string :=
  (data r, errors r).
End Result.

(** ** The world and the monad of effects *)

(** The exceptions the modelled code can raise. *)
Inductive exn : Type :=
  | TypeError (msg : string)
  | KeyError (key : string)
  | ValidationError (msg : string)
  | StorageError (msg : string)
  | InvalidRequestError (msg : string).

Inductive Outcome (A : Type) : Type :=
  | Val (a : A)
  | Raise (e : exn).
Arguments Val {A} a.
Arguments Raise {A} e.

(** The external collaborators of [acontext_core.di]. *)
Inductive Collaborator : Type := MQ_CLIENT | DB_CLIENT | S3_CLIENT.

(** What an observer of the process can see, in order of occurrence. *)
Inductive Event : Type :=
  | EvBegin
  | EvUpdateStatus (ref : nat) (status : string)
  | EvCommit
  | EvRollback
  | EvLogError (msg : string)
  | EvPrint (line : string).

(** [message_rows] and [project_rows] are the committed tables, in creation
    order; [session_rows] is the working copy of the open transaction (the
    ORM session's objects), absent when none is open; [storage_fault] is
    the fault the storage layer currently answers queries with, if any;
    [healthy] is what each collaborator's [health_check] returns. *)
Record World : Type := mkWorld {
  message_rows : list Message.t;
  project_rows : list Project.t;
  session_rows : option (list Message.t);
  storage_fault : option string;
  healthy : Collaborator -> bool;
  trace : list Event
}.

Definition M (A : Type) : Type := World -> Outcome A * World.

Definition ret {A : Type} (a : A) : M A := fun w => (Val a, w).

Definition raise {A : Type} (e : exn) : M A := fun w => (Raise e, w).

Definition bind {A B : Type} (c : M A) (k : A -> M B) : M B :=
  fun w =>
    match c w with
    | (Val a, w') => k a w'
    | (Raise e, w') => (Raise e, w')
    end.

Declare Scope py_scope.
Delimit Scope py_scope with py.
Notation "x <- c ;; k" := (bind c (fun x => k))
  (at level 100, c at next level, right associativity) : py_scope.
Notation "c ;; k" := (bind c (fun _ => k))
  (at level 100, right associativity) : py_scope.
Local Open Scope py_scope.

Definition emit (e : Event) : M unit :=
  fun w =>
    (Val tt,
     {| message_rows := message_rows w; project_rows := project_rows w;
        session_rows := session_rows w; storage_fault := storage_fault w;
        healthy := healthy w; trace := trace w ++ [e] |}).

(** [print(s)] *)
Definition print (s : string) : M unit := emit (EvPrint s).

(** [LOG.error(msg)] *)
Definition LOG_error (msg : string) : M unit := emit (EvLogError msg).

(** A list comprehension [[f(x) for x in xs]]: the items are evaluated left
    to right and appended to the list under construction; the first
    exception ends it. *)
Fixpoint comprehension_from {A B : Type} (f : A -> M B) (xs : list A) (acc : list B)
  : M (list B) :=
  match xs with
  | [] => ret acc
  | x :: xs' => y <- f x ;; comprehension_from f xs' (acc ++ [y])
  end.

Definition comprehension {A B : Type} (f : A -> M B) (xs : list A) : M (list B) :=
  comprehension_from f xs [].

(** A statement loop [for x in xs: body(x)]. *)
Fixpoint for_each {A : Type} (xs : list A) (body : A -> M unit) : M unit :=
  match xs with
  | [] => ret tt
  | x :: xs' => body x ;; for_each xs' body
  end.

(** ** The message renderer ([schema/session/message.py]) *)

Definition STRING_TYPES : list string := ["text"; "tool-call"; "tool-result"].

(** [x in STRING_TYPES] *)
Definition in_STRING_TYPES (x : string) : bool :=
  existsb (String.eqb x) STRING_TYPES.

(** [part.meta[key]]: a [TypeError] when [meta] is [None], a [KeyError] when
    the key is missing. *)
Definition meta_getitem (part : Part) (key : string) : M pyval :=
  match meta part with
  | None => raise (TypeError "'NoneType' object is not subscriptable")
  | Some d =>
      match dict_lookup d key with
      | Some v => ret v
      | None => raise (KeyError key)
      end
  end.

(** The function returns a line, or [None] when it runs off its end. *)
Definition pack_message_line (role : string) (part : Part) : M (option string) :=
  if negb (in_STRING_TYPES (type part)) then
    ret (Some ("<" +:+ role +:+ "> [" +:+ type part +:+ " file: "
                 +:+ py_str (of_optional_str (filename part)) +:+ "]"))
  else if String.eqb (type part) "text" then
    ret (Some ("<" +:+ role +:+ "> " +:+ py_str (of_optional_str (text part))))
  else if String.eqb (type part) "tool-call" then
    function_name <- meta_getitem part "function_name" ;;
    parameters <- meta_getitem part "parameters" ;;
    ret (Some ("<" +:+ role +:+ "> USE TOOL " +:+ py_str function_name
                 +:+ ", WITH PARAMS " +:+ py_str parameters))
  else
    ret None.

Definition newline : string := String "010"%char "".

(** [sep.join(items)] as [str.join] runs it: the items are visited in
    order, an item that is not a [str] (here: [None]) raises [TypeError],
    and the separator goes between consecutive items. *)
Fixpoint join_from (sep : string) (items : list (option string)) (i : nat)
    (acc : string) : M string :=
  match items with
  | [] => ret acc
  | None :: _ =>
      raise (TypeError ("sequence item " +:+ int_repr (Z.of_nat i)
                          +:+ ": expected str instance, NoneType found"))
  | Some s :: items' =>
      join_from sep items' (S i) (if Nat.eqb i 0 then s else acc +:+ sep +:+ s)
  end.

Definition str_join (sep : string) (items : list (option string)) : M string :=
  join_from sep items 0 "".

Definition to_string (self : MessageBlob) : M string :=
  lines <- comprehension (fun p => pack_message_line (role self) p) (parts self) ;;
  str_join newline lines.

(** ** Storage: the scoped transaction and the ORM session *)

Definition set_session_rows (rows : option (list Message.t)) (w : World) : World :=
  {| message_rows := message_rows w; project_rows := project_rows w;
     session_rows := rows; storage_fault := storage_fault w;
     healthy := healthy w; trace := trace w |}.

Definition set_message_rows (rows : list Message.t) (w : World) : World :=
  {| message_rows := rows; project_rows := project_rows w;
     session_rows := session_rows w; storage_fault := storage_fault w;
     healthy := healthy w; trace := trace w |}.

(** The handle a scoped transaction hands to its body. *)
Inductive AsyncSession : Type := the_session.

(** Modelled from the spec: [DB_CLIENT.get_session_context()] of
    [infra/db], not among the sources.  Section 6: it acquires a
    transactional handle and guarantees commit-or-rollback on exit.  The
    body works on its own copy of the rows; leaving the block normally (an
    early [return] included) commits that copy, leaving it by an exception
    discards it and re-raises. *)
Definition get_session_context {A : Type} (body : AsyncSession -> M A) : M A :=
  fun w =>
    match (emit EvBegin ;; body the_session) (set_session_rows (Some (message_rows w)) w) with
    | (Val a, w') =>
        let rows := default (message_rows w') (session_rows w') in
        (emit EvCommit ;; ret a) (set_session_rows None (set_message_rows rows w'))
    | (Raise e, w') =>
        (emit EvRollback ;; raise e) (set_session_rows None w')
    end.

(** An ORM object is a reference into the session's rows: here, its index. *)
Definition MessageRef : Type := nat.

(** The references, from [i] on and in row order, of the rows that satisfy [keep]. *)
Fixpoint refs_from (keep : Message.t -> bool) (rows : list Message.t) (i : nat)
  : list MessageRef :=
  match rows with
  | [] => []
  | r :: rows' =>
      if keep r then i :: refs_from keep rows' (S i) else refs_from keep rows' (S i)
  end.

Definition matches (session_id : asUUID) (status : string) (r : Message.t) : bool :=
  String.eqb (Message.session_id r) session_id
  && String.eqb (Message.session_task_process_status r) status.

(** Modelled from the spec: [fetch_session_messages] of [service/data/message],
    not among the sources.  Section 4.4: success with the messages of exactly
    this session and status, in creation order (an empty sequence when none
    matches); a rejection only on a storage-layer fault. *)
Definition fetch_session_messages (session : AsyncSession) (session_id : asUUID)
    (status : string) : M (Result.t (list MessageRef)) :=
  fun w =>
    match storage_fault w with
    | Some e => (Val (Result.reject e), w)
    | None =>
        match session_rows w with
        | Some rows => (Val (Result.resolve (refs_from (matches session_id status) rows 0)), w)
        | None => (Raise (InvalidRequestError "no transaction is open"), w)
        end
    end.

(** Reading the attributes of the ORM object [m]. *)
Definition orm_get (m : MessageRef) : M Message.t :=
  fun w =>
    match session_rows w with
    | Some rows =>
        match rows !! m with
        | Some r => (Val r, w)
        | None => (Raise (InvalidRequestError "no such object in the session"), w)
        end
    | None => (Raise (InvalidRequestError "no transaction is open"), w)
    end.

(** [m.session_task_process_status = v]: the write lands in the session's
    copy of the row and reaches the table at commit. *)
Definition orm_set_status (m : MessageRef) (v : string) : M unit :=
  fun w =>
    match session_rows w with
    | Some rows =>
        match rows !! m with
        | Some _ =>
            emit (EvUpdateStatus m v)
              (set_session_rows (Some (alter (Message.set_status v) m rows)) w)
        | None => (Raise (InvalidRequestError "no such object in the session"), w)
        end
    | None => (Raise (InvalidRequestError "no transaction is open"), w)
    end.

(** ** The session processor ([service/controller/message.py]) *)

(** Truth value of a list: non-empty. *)
Definition truthy {A : Type} (l : list A) : bool :=
  match l with
  | [] => false
  | _ :: _ => true
  end.

(** [MessageBlob(message_id=m.id, role=m.role, parts=m.parts)] *)
Definition snapshot (r : Message.t) : MessageBlob :=
  {| message_id := Message.id r; role := Message.role r; parts := Message.parts r |}.

(** The [async with] block of [process_session_pending_message]: [None] is
    its early [return], [Some messages_data] is falling out of its end. *)
Definition claim_pending (session_id : asUUID) : M (option (list MessageBlob)) :=
  get_session_context (fun session =>
    r <- fetch_session_messages session session_id "pending" ;;
    let '(messages, eil) := Result.unpack r in
    if truthy eil then
      LOG_error ("Exception while fetching session messages: "
                   +:+ py_str (VList (map VStr eil))) ;;
      ret None
    else
      match messages with
      | None => raise (TypeError "'NoneType' object is not iterable")
      | Some messages =>
          for_each messages (fun m => orm_set_status m (value RUNNING)) ;;
          messages_data <- comprehension (fun m => r <- orm_get m ;; ret (snapshot r)) messages ;;
          ret (Some messages_data)
      end).

Definition process_session_pending_message (session_id : asUUID) : M unit :=
  claimed <- claim_pending session_id ;;
  match claimed with
  | None => ret tt
  | Some messages_data =>
      for_each messages_data (fun m => s <- to_string m ;; print s)
  end.

(** ** Project configuration ([service/data/project.py]) *)

Section ProjectConfigs.

(** [ProjectConfig], [DEFAULT_PROJECT_CONFIG] and the construction of a
    [ProjectConfig] from the keyword arguments that [filter_value_from_json]
    extracts from a JSON value belong to [schema/config] and [util/config],
    which are not among the sources. *)
Variable ProjectConfig : Type.
Variable DEFAULT_PROJECT_CONFIG : ProjectConfig.
Variable project_config_from_json : pyval -> Outcome ProjectConfig.

(** [(await db_session.execute(select(Project).where(Project.id == project_id))).scalars().first()];
    a storage fault surfaces as the driver's exception. *)
Definition select_project (db_session : AsyncSession) (project_id : asUUID)
  : M (option Project.t) :=
  fun w =>
    match storage_fault w with
    | Some e => (Raise (StorageError e), w)
    | None =>
        (Val (List.find (fun p => String.eqb (Project.id p) project_id) (project_rows w)), w)
    end.

(** [not project.configs or "project_config" not in project.configs] *)
Definition lacks_project_config (configs : option pydict) : bool :=
  match configs with
  | None => true
  | Some d => negb (truthy d) || negb (dict_contains d "project_config")
  end.

Definition get_project_config (db_session : AsyncSession) (project_id : asUUID)
  : M (Result.t ProjectConfig) :=
  project <- select_project db_session project_id ;;
  match project with
  | None => ret (Result.reject ("Project not found: " +:+ project_id))
  | Some project =>
      if lacks_project_config (Project.configs project) then
        ret (Result.resolve DEFAULT_PROJECT_CONFIG)
      else
        match dict_lookup (default [] (Project.configs project)) "project_config" with
        | None => raise (KeyError "project_config")
        | Some v =>
            cfg <- (fun w => (project_config_from_json v, w)) ;;
            ret (Result.resolve cfg)
        end
  end.

End ProjectConfigs.

(** ** The health endpoint ([api.py]) *)

(** [await c.health_check()] *)
Definition health_check (c : Collaborator) : M bool :=
  fun w => (Val (healthy w c), w).

Definition health : M string :=
  mq <- health_check MQ_CLIENT ;;
  if negb mq then ret "MQ consumer error"
  else
    db <- health_check DB_CLIENT ;;
    if negb db then ret "DB client error"
    else
      s3 <- health_check S3_CLIENT ;;
      if negb s3 then ret "S3 client error"
      else ret "ok".

(** ** The transcript as the specification words it *)

(** The rendered lines of the parts, in part order. *)
Fixpoint lines_in_part_order (role : string) (parts : list Part)
  : M (list (option string)) :=
  match parts with
  | [] => ret []
  | p :: parts' =>
      line <- pack_message_line role p ;;
      lines <- lines_in_part_order role parts' ;;
      ret (line :: lines)
  end.

(** The lines as strings, or the position of the first item that is none. *)
Fixpoint all_lines (items : list (option string)) : nat + list string :=
  match items with
  | [] => inr []
  | None :: _ => inl 0
  | Some s :: items' =>
      match all_lines items' with
      | inl k => inl (S k)
      | inr ss => inr (s :: ss)
      end
  end.

Definition not_a_str (i : nat) : exn :=
  TypeError ("sequence item " +:+ int_repr (Z.of_nat i)
               +:+ ": expected str instance, NoneType found").

(** The newline-joined sequence of the lines. *)
Definition newline_joined (items : list (option string)) : M string :=
  match all_lines items with
  | inr ss => ret (String.concat newline ss)
  | inl k => raise (not_a_str k)
  end.

Definition transcript (role : string) (parts : list Part) : M string :=
  lines <- lines_in_part_order role parts ;;
  newline_joined lines.

(** The value and the final state of a run. *)
Definition result_of {A : Type} (c : M A) (w : World) : Outcome A := fst (c w).
Definition world_after {A : Type} (c : M A) (w : World) : World := snd (c w).

(** ** The API server: validators and logging

    [server/api/acontext_server/schema/orm/basic.py] (the field validators
    of [Project], [Space] and [Session]),
    [server/api/acontext_server/telemetry/log.py] ([get_global_logger],
    [L_]) and [server/api/api.py] ([configure_logging]). *)

Module Api.

Inductive error : Type :=
  | ValueError (msg : string)
  | AttributeError (msg : string).

Inductive Res (A : Type) : Type :=
  | Ok (a : A)
  | Err (e : error).
Arguments Ok {A} a.
Arguments Err {A} e.

(** *** [str.strip] *)

(** The whitespace of [str.strip()], among the code points below 256. *)
Definition is_space (c : ascii) : bool :=
  let n := N_of_ascii c in
  ((9 <=? n) && (n <=? 13) || (28 <=? n) && (n <=? 32) || (n =? 133) || (n =? 160))%N.

Fixpoint lstrip (s : string) : string :=
  match s with
  | EmptyString => EmptyString
  | String c s' => if is_space c then lstrip s' else s
  end.

Fixpoint rstrip (s : string) : string :=
  match s with
  | EmptyString => EmptyString
  | String c s' =>
      match rstrip s' with
      | EmptyString => if is_space c then EmptyString else String c EmptyString
      | String c' r => String c (String c' r)
      end
  end.

(** [s.strip()] *)
Definition strip (s : string) : string := rstrip (lstrip s).

(** Truth value of a [str]: non-empty. *)
Definition nonempty (s : string) : bool :=
  match s with
  | EmptyString => false
  | String _ _ => true
  end.

(** *** The field validators of [basic.py] *)

(** [validate_name] of the class [entity] ("Project", "Space" or "Session");
    the three differ in the entity named by the message only. *)
Definition validate_name (entity : string) (v : string) : Res string :=
  if negb (nonempty v) || negb (nonempty (strip v)) then
    Err (ValueError (entity +:+ " name cannot be empty or whitespace only"))
  else
    Ok (strip v).

(** [validate_description], the same in the three classes. *)
Definition validate_description (v : option string) : option string :=
  match v with
  | Some s =>
      if Nat.eqb (String.length (strip s)) 0 then None
      else if nonempty s then Some (strip s) else None
  | None => None
  end.

(** *** The [logging] module, as far as the code uses it *)

(** A handler object: a [StreamHandler] and the format string of its
    formatter, if one is set. *)
Record Handler : Type := mkHandler {
  formatter : option string
}.

(** A handler is referred to by its position in the heap of handlers. *)
Definition HandlerRef : Type := nat.

Record Logger : Type := mkLogger {
  name : string;
  level : Z;
  handlers : list HandlerRef
}.

(** A logger object is referred to by the key it is registered under. *)
Definition LoggerRef : Type := string.

(** [LOG] is the module global of [telemetry/log.py]; [loggers] is the
    registry behind [logging.getLogger]; [handler_heap] holds the handler
    objects created so far. *)
Record State : Type := mkState {
  LOG : option LoggerRef;
  loggers : gmap string Logger;
  handler_heap : list Handler
}.

Definition L (A : Type) : Type := State -> Res A * State.

Definition lret {A : Type} (a : A) : L A := fun st => (Ok a, st).

Definition lraise {A : Type} (e : error) : L A := fun st => (Err e, st).

Definition lbind {A B : Type} (c : L A) (k : A -> L B) : L B :=
  fun st =>
    match c st with
    | (Ok a, st') => k a st'
    | (Err e, st') => (Err e, st')
    end.

Declare Scope api_scope.
Delimit Scope api_scope with api.
Notation "x <- c ;; k" := (lbind c (fun x => k))
  (at level 100, c at next level, right associativity) : api_scope.
Notation "c ;; k" := (lbind c (fun _ => k))
  (at level 100, right associativity) : api_scope.
Local Open Scope api_scope.

Definition INFO : Z := 20.
Definition NOTSET : Z := 0.

Definition set_loggers (m : gmap string Logger) (st : State) : State :=
  {| LOG := LOG st; loggers := m; handler_heap := handler_heap st |}.

(** [logging.getLogger(key)]: the logger registered under [key], created
    with no level and no handlers when there is none. *)
Definition getLogger (key : string) : L LoggerRef :=
  fun st =>
    match loggers st !! key with
    | Some _ => (Ok key, st)
    | None =>
        (Ok key,
         set_loggers (<[key := {| name := key; level := NOTSET; handlers := [] |}]> (loggers st)) st)
    end.

Definition update_logger (f : Logger -> Logger) (lg : LoggerRef) : L unit :=
  fun st => (Ok tt, set_loggers (alter f lg (loggers st)) st).

(** [lg.setLevel(lvl)] *)
Definition setLevel (lg : LoggerRef) (lvl : Z) : L unit :=
  update_logger (fun x => {| name := name x; level := lvl; handlers := handlers x |}) lg.

(** [lg.addHandler(h)]: appended unless it is among the handlers already. *)
Definition addHandler (lg : LoggerRef) (h : HandlerRef) : L unit :=
  update_logger
    (fun x => {| name := name x; level := level x;
                 handlers := if existsb (Nat.eqb h) (handlers x) then handlers x
                             else handlers x ++ [h] |}) lg.

(** [lg.handlers.clear()] *)
Definition handlers_clear (lg : LoggerRef) : L unit :=
  update_logger (fun x => {| name := name x; level := level x; handlers := [] |}) lg.

(** [lg.name = n] *)
Definition set_name (lg : LoggerRef) (n : string) : L unit :=
  update_logger (fun x => {| name := n; level := level x; handlers := handlers x |}) lg.

(** [handler = logging.StreamHandler(); handler.setFormatter(logging.Formatter(fmt))] *)
Definition new_StreamHandler (fmt : string) : L HandlerRef :=
  fun st =>
    (Ok (length (handler_heap st)),
     {| LOG := LOG st; loggers := loggers st;
        handler_heap := handler_heap st ++ [{| formatter := Some fmt |}] |}).

Definition get_LOG : L (option LoggerRef) := fun st => (Ok (LOG st), st).

Definition set_LOG (lg : LoggerRef) : L unit :=
  fun st => (Ok tt, {| LOG := Some lg; loggers := loggers st; handler_heap := handler_heap st |}).

(** [lg.handlers], for the value [lg] of [LOG]: an [AttributeError] when it
    is [None]. *)
Definition LOG_handlers (lg : option LoggerRef) : L (list HandlerRef) :=
  fun st =>
    match lg with
    | None => (Err (AttributeError "'NoneType' object has no attribute 'handlers'"), st)
    | Some key =>
        match loggers st !! key with
        | Some x => (Ok (handlers x), st)
        | None => (Err (AttributeError "no such logger"), st)
        end
    end.

(** *** [telemetry/log.py] and [api.py] *)

Section Logging.

(** The constants of [util/terminal_color.TerminalColorMarks], which is not
    among the sources. *)
Variables BOLD BLUE END : string.

Definition log_format : string :=
  BOLD +:+ BLUE +:+ "%(name)s |" +:+ END
    +:+ "  %(levelname)s - %(asctime)s  -  %(message)s".

Definition get_global_logger (level : Z) : L LoggerRef :=
  current <- get_LOG ;;
  match current with
  | Some lg => lret lg
  | None =>
      handler <- new_StreamHandler log_format ;;
      logger <- getLogger "acontext" ;;
      setLevel logger level ;;
      addHandler logger handler ;;
      set_LOG logger ;;
      lret logger
  end.

(** Importing [telemetry/log.py]: the global starts as [None] and the
    module ends with the call [get_global_logger()], at the default level. *)
Definition import_log (st : State) : State :=
  snd (get_global_logger INFO
         {| LOG := None; loggers := loggers st; handler_heap := handler_heap st |}).

End Logging.

(** [configure_logging] reads [LOG], the name [api.py] imports from
    [telemetry/log.py]; the global is never rebound once set, so the two
    are one value. *)
Definition configure_logging : L unit :=
  uvicorn_access <- getLogger "uvicorn.access" ;;
  handlers_clear uvicorn_access ;;
  set_name uvicorn_access "acontext" ;;
  lg <- get_LOG ;;
  hs <- LOG_handlers lg ;;
  let custom_handler := match hs with h :: _ => Some h | [] => None end in
  match custom_handler with
  | Some h => addHandler uvicorn_access h
  | None => lret tt
  end ;;
  setLevel uvicorn_access INFO.

(** A run of calls [get_global_logger(level)], one per level in the list. *)
Fixpoint call_all (get : Z -> L LoggerRef) (levels : list Z) : L unit :=
  match levels with
  | [] => lret tt
  | lvl :: levels' => get lvl ;; call_all get levels'
  end.

(** The string is all whitespace (the empty string included). *)
Fixpoint all_space (s : string) : bool :=
  match s with
  | EmptyString => true
  | String c s' => is_space c && all_space s'
  end.

(** The first and the last character of a string. *)
Definition first_char (s : string) : option ascii :=
  match s with
  | EmptyString => None
  | String c _ => Some c
  end.

Fixpoint last_char (s : string) : option ascii :=
  match s with
  | EmptyString => None
  | String c EmptyString => Some c
  | String _ s' => last_char s'
  end.

(** *** [json.dumps] and the log-line prefix [L_] *)

Definition dquote : ascii := "034"%char.
Definition backslash : ascii := "\"%char.

(** One character of a JSON string under [ensure_ascii]: the quote, the
    backslash and everything outside the range from the space to the
    tilde are escaped. *)
Definition json_escape_char (c : ascii) : string :=
  let n := N_of_ascii c in
  if Ascii.eqb c dquote then String backslash (String dquote "")
  else if Ascii.eqb c backslash then String backslash (String backslash "")
  else if Ascii.eqb c "010" then "\n"
  else if Ascii.eqb c "013" then "\r"
  else if Ascii.eqb c "009" then "\t"
  else if Ascii.eqb c "008" then "\b"
  else if Ascii.eqb c "012" then "\f"
  else if ((32 <=? n) && (n <=? 126))%N then String c ""
  else "\u00" +:+ String (hex_digit (n / 16)) (String (hex_digit (n mod 16)) "").

Fixpoint json_escape (s : string) : string :=
  match s with
  | EmptyString => ""
  | String c s' => json_escape_char c +:+ json_escape s'
  end.

Definition json_string (s : string) : string :=
  String dquote (json_escape s +:+ String dquote "").

(** [json.dumps(v)] with the default separators. *)
Fixpoint json_dumps (v : pyval) : string :=
  match v with
  | VNone => "null"
  | VBool true => "true"
  | VBool false => "false"
  | VInt z => int_repr z
  | VStr s => json_string s
  | VList items =>
      "[" +:+
      (fix go (l : list pyval) : string :=
         match l with
         | [] => ""
         | x :: l' =>
             match l' with
             | [] => json_dumps x
             | _ :: _ => json_dumps x +:+ ", " +:+ go l'
             end
         end) items
      +:+ "]"
  | VDict items =>
      "{" +:+
      (fix go (l : list (string * pyval)) : string :=
         match l with
         | [] => ""
         | (k, x) :: l' =>
             match l' with
             | [] => json_string k +:+ ": " +:+ json_dumps x
             | _ :: _ => json_string k +:+ ": " +:+ json_dumps x +:+ ", " +:+ go l'
             end
         end) items
      +:+ "}"
  end.

Definition L_ (project_id space_id messages : pyval) : string :=
  json_dumps (VDict [("project_id", project_id); ("space_id", space_id)])
    +:+ " " +:+ py_str messages.

(** The characters of a decimal numeral. *)
Definition is_num_char (c : ascii) : bool :=
  let n := N_of_ascii c in
  ((48 <=? n) && (n <=? 57) || (n =? 45))%N.

Fixpoint all_num (s : string) : bool :=
  match s with
  | EmptyString => true
  | String c s' => is_num_char c && all_num s'
  end.

End Api.

(** ** Notions used in the statements *)

(** The data-model invariant of a part the renderer relies on: a tool-call
    carries the metadata keys [function_name] and [parameters]. *)
Definition well_formed_part (p : Part) : Prop :=
  type p = "tool-call" →
  ∃ (d : pydict) (function_name parameters : pyval),
    meta p = Some d
    ∧ dict_lookup d "function_name" = Some function_name
    ∧ dict_lookup d "parameters" = Some parameters.

(** A project row carries a project config: its [configs] mapping has the
    key [project_config]. *)
Definition has_project_config (p : Project.t) : Prop :=
  ∃ (d : pydict) (v : pyval),
    Project.configs p = Some d ∧ dict_lookup d "project_config" = Some v.

#[global] Instance Collaborator_eq_dec : EqDecision Collaborator.
Proof. solve_decision. Defined.

(** The world in which the health check of [c] has flipped to false. *)
Definition mark_unhealthy (c : Collaborator) (w : World) : World :=
  {| message_rows := message_rows w; project_rows := project_rows w;
     session_rows := session_rows w; storage_fault := storage_fault w;
     healthy := fun c' => if decide (c' = c) then false else healthy w c';
     trace := trace w |}.

(** The world after the events [es] have been observed. *)
Definition add_trace (es : list Event) (w : World) : World :=
  {| message_rows := message_rows w; project_rows := project_rows w;
     session_rows := session_rows w; storage_fault := storage_fault w;
     healthy := healthy w; trace := trace w ++ es |}.

(** The row [r] after the status [v] has been written to the rows that
    satisfy [keep]. *)
Definition mark_where (keep : Message.t -> bool) (v : string) (r : Message.t) : Message.t :=
  if keep r then Message.set_status v r else r.

(** What claiming does to a row: a row of the session that is pending
    becomes running, every other row stays. *)
Definition claimed (session_id : asUUID) (r : Message.t) : Message.t :=
  mark_where (matches session_id (value PENDING)) (value RUNNING) r.

(** The rendering loop that follows the transaction. *)
Definition render_all (messages_data : list MessageBlob) : M unit :=
  for_each messages_data (fun m => s <- to_string m ;; print s).

(** The world whose storage layer answers with the fault [e]. *)
Definition with_storage_fault (e : string) (w : World) : World :=
  {| message_rows := message_rows w; project_rows := project_rows w;
     session_rows := session_rows w; storage_fault := Some e;
     healthy := healthy w; trace := trace w |}.

(** ** Sample data *)

Definition all_healthy : Collaborator -> bool := fun _ => true.

(** A world at rest: the given tables, no open transaction, no fault, an
    empty trace. *)
Definition world_of (messages : list Message.t) (projects : list Project.t) : World :=
  {| message_rows := messages; project_rows := projects; session_rows := None;
     storage_fault := None; healthy := all_healthy; trace := [] |}.

Definition text_part (s : string) : Part :=
  {| type := "text"; text := Some s; filename := None; meta := None |}.

Definition file_part (kind name : string) : Part :=
  {| type := kind; text := None; filename := Some name; meta := None |}.

Definition tool_call_part (function_name : string) (parameters : pyval) : Part :=
  {| type := "tool-call"; text := None; filename := None;
     meta := Some [("function_name", VStr function_name); ("parameters", parameters)] |}.

Definition tool_result_part (payload : string) : Part :=
  {| type := "tool-result"; text := Some payload; filename := None; meta := None |}.

Definition sample_messages : list Message.t :=
  [ Message.mk "m1" "s1" "user" [text_part "hi"] "pending";
    Message.mk "m2" "s2" "user" [text_part "elsewhere"] "pending";
    Message.mk "m3" "s1" "assistant" [file_part "file" "a.png"] "pending";
    Message.mk "m4" "s1" "user" [text_part "done"] "running" ].

Definition stuck_messages : list Message.t :=
  [ Message.mk "m1" "s1" "user" [text_part "hi"] "pending";
    Message.mk "m2" "s1" "tool" [tool_result_part "42"] "pending";
    Message.mk "m3" "s1" "assistant" [text_part "bye"] "pending" ].

(** ** Properties of the renderer *)

Lemma append_assoc (a b c : string) : (a +:+ b) +:+ c = a +:+ (b +:+ c).
Proof.
  induction a as [|x a IH]; [reflexivity|].
  change (String x ((a +:+ b) +:+ c) = String x (a +:+ b +:+ c)).
  now rewrite IH.
Qed.

Lemma in_STRING_TYPES_false (x : string) :
  x ∉ ["text"; "tool-call"; "tool-result"] → in_STRING_TYPES x = false.
Proof.
  intros Hx. unfold in_STRING_TYPES, STRING_TYPES. simpl.
  rewrite !orb_false_r.
  repeat (apply orb_false_intro); apply String.eqb_neq; intros ->; apply Hx;
    repeat constructor.
Qed.

(** A line is computed from the role and the part alone, and the world is
    left as it was. *)
Lemma pack_message_line_pure (role : string) (part : Part) :
  ∃ o : Outcome (option string), ∀ w, pack_message_line role part w = (o, w).
Proof.
  unfold pack_message_line, meta_getitem, bind, ret, raise.
  destruct (negb (in_STRING_TYPES (type part))); [eauto|].
  destruct (String.eqb (type part) "text"); [eauto|].
  destruct (String.eqb (type part) "tool-call"); [|eauto].
  destruct (meta part) as [d|]; [|eauto].
  destruct (dict_lookup d "function_name"); [|eauto].
  destruct (dict_lookup d "parameters"); eauto.
Qed.

Lemma comprehension_from_spec (role : string) (ps : list Part) :
  ∀ (acc : list (option string)) (w : World),
    comprehension_from (fun p => pack_message_line role p) ps acc w
    = (lines <- lines_in_part_order role ps ;; ret (acc ++ lines)) w.
Proof.
  induction ps as [|p ps IH]; intros acc w; simpl.
  - unfold bind, ret. now rewrite app_nil_r.
  - unfold bind at 1 2 3. destruct (pack_message_line role p w) as [[line|e] w1]; [|reflexivity].
    rewrite IH. unfold bind, ret.
    destruct (lines_in_part_order role ps w1) as [[lines|e] w2]; [|reflexivity].
    now rewrite <- List.app_assoc.
Qed.

Lemma join_from_spec (sep : string) (items : list (option string)) :
  ∀ (i : nat) (acc : string) (w : World),
    join_from sep items (S i) acc w
    = match all_lines items with
      | inr ss => (Val (fold_left (fun a s => a +:+ sep +:+ s) ss acc), w)
      | inl k => (Raise (not_a_str (S i + k)), w)
      end.
Proof.
  induction items as [|[s|] items IH]; intros i acc w; simpl.
  - reflexivity.
  - rewrite IH. destruct (all_lines items) as [k|ss]; simpl.
    + now rewrite Nat.add_succ_r.
    + reflexivity.
  - unfold raise, not_a_str. now rewrite Nat.add_0_r.
Qed.

Lemma concat_cons_append (sep a b : string) (ss : list string) :
  String.concat sep ((a +:+ b) :: ss) = a +:+ String.concat sep (b :: ss).
Proof.
  destruct ss as [|y ss]; [reflexivity|].
  change ((a +:+ b) +:+ sep +:+ String.concat sep (y :: ss)
          = a +:+ b +:+ sep +:+ String.concat sep (y :: ss)).
  apply append_assoc.
Qed.

Lemma concat_fold_left (sep : string) (ss : list string) :
  ∀ s, fold_left (fun a x => a +:+ sep +:+ x) ss s = String.concat sep (s :: ss).
Proof.
  induction ss as [|x ss IH]; intros s; [reflexivity|].
  cbn [fold_left]. rewrite IH. now rewrite !concat_cons_append.
Qed.

(** [str.join] computes the joined sequence, or fails at the first item
    that is not a line. *)
Lemma str_join_spec (sep : string) (items : list (option string)) (w : World) :
  str_join sep items w
  = match all_lines items with
    | inr ss => (Val (String.concat sep ss), w)
    | inl k => (Raise (not_a_str k), w)
    end.
Proof.
  unfold str_join. destruct items as [|[s|] items]; [reflexivity| |reflexivity].
  cbn [join_from all_lines Nat.eqb]. rewrite join_from_spec.
  destruct (all_lines items) as [k|ss]; [reflexivity|].
  now rewrite concat_fold_left.
Qed.

Lemma to_string_transcript (self : MessageBlob) (w : World) :
  to_string self w = transcript (role self) (parts self) w.
Proof.
  unfold to_string, transcript, comprehension.
  unfold bind at 1. rewrite comprehension_from_spec.
  unfold bind, ret.
  destruct (lines_in_part_order (role self) (parts self) w) as [[lines|e] w1];
    [|reflexivity].
  cbn [app]. unfold newline_joined. rewrite str_join_spec.
  now destruct (all_lines lines).
Qed.

Lemma lines_in_part_order_pure (role : string) (ps : list Part) :
  ∃ o : Outcome (list (option string)), ∀ w, lines_in_part_order role ps w = (o, w).
Proof.
  induction ps as [|p ps [o IH]]; simpl.
  - now exists (Val []).
  - destruct (pack_message_line_pure role p) as [[line|e] Hp].
    + destruct o as [lines|e].
      * exists (Val (line :: lines)). intros w. unfold bind, ret. now rewrite Hp, IH.
      * exists (Raise e). intros w. unfold bind, ret. now rewrite Hp, IH.
    + exists (Raise e). intros w. unfold bind. now rewrite Hp.
Qed.

(** A transcript is computed from the role and the parts alone, and the
    world is left as it was. *)
Lemma to_string_pure (role0 : string) (ps : list Part) :
  ∃ o : Outcome string,
    ∀ (self : MessageBlob) (w : World),
      role self = role0 → parts self = ps → to_string self w = (o, w).
Proof.
  destruct (lines_in_part_order_pure role0 ps) as [[lines|e] Hl].
  - destruct (all_lines lines) as [k|ss] eqn:Hall.
    + exists (Raise (not_a_str k)). intros self w <- <-.
      rewrite to_string_transcript. unfold transcript, bind, newline_joined.
      now rewrite Hl, Hall.
    + exists (Val (String.concat newline ss)). intros self w <- <-.
      rewrite to_string_transcript. unfold transcript, bind, newline_joined.
      now rewrite Hl, Hall.
  - exists (Raise e). intros self w <- <-.
    rewrite to_string_transcript. unfold transcript, bind. now rewrite Hl.
Qed.

(** The examples of section 8 of the specification. *)
Example render_text_example (w : World) :
  pack_message_line "user" (text_part "hi") w = (Val (Some "<user> hi"), w).
Proof. reflexivity. Qed.

Example render_tool_call_example (w : World) :
  pack_message_line "user" (tool_call_part "search" (VDict [("q", VStr "x")])) w
  = (Val (Some "<user> USE TOOL search, WITH PARAMS {'q': 'x'}"), w).
Proof. reflexivity. Qed.

Example render_file_example (w : World) :
  pack_message_line "user" (file_part "file" "a.png") w
  = (Val (Some "<user> [file file: a.png]"), w).
Proof. reflexivity. Qed.

(** C6: [pack_message_line] applies its rules in order.  A part whose kind
    is none of text, tool-call, tool-result renders as
    "<role> [kind file: filename]"; a text part renders as "<role> text"; a
    tool-call part, whose metadata carries [function_name] and
    [parameters], renders as
    "<role> USE TOOL function_name, WITH PARAMS parameters".  Each
    placeholder is filled as an f-string fills it, with [str] of the value. *)
Theorem pack_message_line_rules (role : string) (part : Part) (w : World) :
  (type part ∉ ["text"; "tool-call"; "tool-result"] →
     pack_message_line role part w
     = (Val (Some ("<" +:+ role +:+ "> [" +:+ type part +:+ " file: "
                     +:+ py_str (of_optional_str (filename part)) +:+ "]")), w))
  ∧ (type part = "text" →
     pack_message_line role part w
     = (Val (Some ("<" +:+ role +:+ "> " +:+ py_str (of_optional_str (text part)))), w))
  ∧ (type part = "tool-call" →
     ∀ (d : pydict) (function_name parameters : pyval),
       meta part = Some d →
       dict_lookup d "function_name" = Some function_name →
       dict_lookup d "parameters" = Some parameters →
       pack_message_line role part w
       = (Val (Some ("<" +:+ role +:+ "> USE TOOL " +:+ py_str function_name
                       +:+ ", WITH PARAMS " +:+ py_str parameters)), w)).
Proof.
  split; [|split].
  - intros Hkind. unfold pack_message_line.
    now rewrite (in_STRING_TYPES_false _ Hkind).
  - intros Hkind. unfold pack_message_line. now rewrite Hkind.
  - intros Hkind d fn ps Hmeta Hfn Hps.
    unfold pack_message_line, meta_getitem, bind, ret.
    now rewrite Hkind, Hmeta, Hfn, Hps.
Qed.

Lemma pack_message_line_rules_witness :
  pack_message_line "user" (file_part "image" "cat.png") (world_of [] [])
  = (Val (Some "<user> [image file: cat.png]"), world_of [] [])
  ∧ pack_message_line "user" (text_part "hi") (world_of [] [])
    = (Val (Some "<user> hi"), world_of [] [])
  ∧ pack_message_line "assistant" (tool_call_part "search" (VInt 7)) (world_of [] [])
    = (Val (Some "<assistant> USE TOOL search, WITH PARAMS 7"), world_of [] []).
Proof.
  split; [|split].
  - apply (proj1 (pack_message_line_rules "user" (file_part "image" "cat.png") (world_of [] []))).
    intros Hin. repeat (apply elem_of_cons in Hin as [Hin|Hin]; [discriminate Hin|]).
    inversion Hin.
  - apply (proj1 (proj2 (pack_message_line_rules "user" (text_part "hi") (world_of [] [])))).
    reflexivity.
  - apply (proj2 (proj2 (pack_message_line_rules "assistant"
                           (tool_call_part "search" (VInt 7)) (world_of [] [])))
             eq_refl
             [("function_name", VStr "search"); ("parameters", VInt 7)]
             (VStr "search") (VInt 7)); reflexivity.
Defined.

(** C7: for every role, a part of kind tool-result matches no rule:
    [pack_message_line] runs off its end and returns [None], no line. *)
Theorem pack_message_line_tool_result (role : string) (part : Part) (w : World) :
  type part = "tool-result" → pack_message_line role part w = (Val None, w).
Proof.
  intros Hkind. unfold pack_message_line. now rewrite Hkind.
Qed.

Lemma pack_message_line_tool_result_witness :
  pack_message_line "user" (tool_result_part "42") (world_of [] [])
  = (Val None, world_of [] []).
Proof.
  apply (pack_message_line_tool_result "user" (tool_result_part "42") (world_of [] [])).
  reflexivity.
Defined.

(** C10: for every role, a message without parts renders to the empty
    string, the join of no lines. *)
Theorem to_string_no_parts (message_id : asUUID) (role : string) (w : World) :
  to_string {| message_id := message_id; role := role; parts := [] |} w = (Val "", w).
Proof. reflexivity. Qed.

(** C5, at the input where the code departs from it: a message whose only
    part is of kind tool-result does not render to a string;
    [pack_message_line] returns [None] for the part and the join of the
    lines raises [TypeError]. *)
Theorem to_string_tool_result_raises (message_id : asUUID) (payload : string) (w : World) :
  to_string {| message_id := message_id; role := "user";
               parts := [tool_result_part payload] |} w
  = (Raise (TypeError "sequence item 0: expected str instance, NoneType found"), w).
Proof. reflexivity. Qed.

Lemma all_lines_Some (lines : list string) : all_lines (map Some lines) = inr lines.
Proof. induction lines as [|l lines IH]; simpl; [reflexivity | now rewrite IH]. Qed.

Lemma lines_in_part_order_Forall2 (role : string) (ps : list Part) (lines : list string) (w : World) :
  Forall2 (fun p l => pack_message_line role p w = (Val (Some l), w)) ps lines →
  lines_in_part_order role ps w = (Val (map Some lines), w).
Proof.
  induction 1 as [|p l ps lines Hp _ IH]; simpl; [reflexivity|].
  unfold bind, ret. now rewrite Hp, IH.
Qed.

(** C8: the transcript of a message is the newline-joined sequence of
    [pack_message_line (role, part)] over its parts, in part order: as
    computations the two agree on every message and in every world, and
    when the parts render to the lines [lines], the transcript is their
    join.  The message with the single part text "hi" and the role "user"
    has the transcript "<user> hi". *)
Theorem to_string_joins_lines :
  (∀ (self : MessageBlob) (w : World),
     to_string self w = transcript (role self) (parts self) w)
  ∧ (∀ (self : MessageBlob) (lines : list string) (w : World),
       Forall2 (fun p l => pack_message_line (role self) p w = (Val (Some l), w))
         (parts self) lines →
       to_string self w = (Val (String.concat newline lines), w))
  ∧ (∀ (message_id : asUUID) (w : World),
       to_string {| message_id := message_id; role := "user"; parts := [text_part "hi"] |} w
       = (Val "<user> hi", w)).
Proof.
  split; [|split].
  - apply to_string_transcript.
  - intros self lines w Hlines. rewrite to_string_transcript.
    unfold transcript, bind, newline_joined.
    rewrite (lines_in_part_order_Forall2 _ _ _ _ Hlines).
    now rewrite all_lines_Some.
  - reflexivity.
Qed.

Lemma to_string_joins_lines_witness :
  to_string {| message_id := "m1"; role := "user";
               parts := [text_part "hi"; file_part "file" "a.png"] |} (world_of [] [])
  = (Val ("<user> hi" +:+ newline +:+ "<user> [file file: a.png]"), world_of [] []).
Proof.
  apply (proj1 (proj2 to_string_joins_lines)
           {| message_id := "m1"; role := "user";
              parts := [text_part "hi"; file_part "file" "a.png"] |}
           ["<user> hi"; "<user> [file file: a.png]"] (world_of [] [])).
  repeat constructor.
Defined.

(** Where rendering does return a string: every part other than a
    tool-result has a line, so a message of well-formed parts without a
    tool-result has a transcript. *)
Lemma pack_message_line_some (role : string) (p : Part) (w : World) :
  type p ≠ "tool-result" → well_formed_part p →
  ∃ line, pack_message_line role p w = (Val (Some line), w).
Proof.
  intros Hnot Hwf. unfold pack_message_line.
  destruct (negb (in_STRING_TYPES (type p))) eqn:Hin; [eauto|].
  destruct (String.eqb_spec (type p) "text") as [Htext|Hntext]; [eauto|].
  destruct (String.eqb_spec (type p) "tool-call") as [Hcall|Hncall].
  - destruct (Hwf Hcall) as (d & fn & ps & Hmeta & Hfn & Hps).
    unfold meta_getitem, bind, ret. rewrite Hmeta, Hfn, Hps. eauto.
  - exfalso. apply negb_false_iff in Hin.
    unfold in_STRING_TYPES, STRING_TYPES in Hin. cbn in Hin.
    rewrite !orb_false_r in Hin.
    apply orb_true_iff in Hin as [Hin|Hin]; [|apply orb_true_iff in Hin as [Hin|Hin]];
      apply String.eqb_eq in Hin; congruence.
Qed.

Lemma to_string_returns (self : MessageBlob) (w : World) :
  Forall (fun p => type p ≠ "tool-result" ∧ well_formed_part p) (parts self) →
  ∃ s, to_string self w = (Val s, w).
Proof.
  intros Hparts.
  assert (Hlines : ∃ lines,
             Forall2 (fun p l => pack_message_line (role self) p w = (Val (Some l), w))
               (parts self) lines).
  { induction Hparts as [|p ps [Hnot Hwf] _ [lines IH]].
    - exists []. constructor.
    - destruct (pack_message_line_some (role self) p w Hnot Hwf) as [line Hline].
      exists (line :: lines). now constructor. }
  destruct Hlines as [lines Hlines].
  exists (String.concat newline lines).
  rewrite to_string_transcript. unfold transcript, bind, newline_joined.
  rewrite (lines_in_part_order_Forall2 _ _ _ _ Hlines).
  now rewrite all_lines_Some.
Qed.

(** C9: rendering is deterministic and free of side effects.  Two runs of
    the renderer on the same role and parts, in any two worlds and for any
    message ids, return the same outcome, and each leaves its world as it
    found it; the same holds of a single line. *)
Theorem rendering_deterministic (m1 m2 : MessageBlob) (w1 w2 : World) :
  role m1 = role m2 →
  parts m1 = parts m2 →
  result_of (to_string m1) w1 = result_of (to_string m2) w2
  ∧ world_after (to_string m1) w1 = w1
  ∧ world_after (to_string m2) w2 = w2
  ∧ ∀ p : Part,
      result_of (pack_message_line (role m1) p) w1
      = result_of (pack_message_line (role m2) p) w2
      ∧ world_after (pack_message_line (role m1) p) w1 = w1
      ∧ world_after (pack_message_line (role m2) p) w2 = w2.
Proof.
  intros Hrole Hparts.
  destruct (to_string_pure (role m1) (parts m1)) as [o Ho].
  unfold result_of, world_after.
  rewrite (Ho m1 w1 eq_refl eq_refl).
  rewrite (Ho m2 w2 (eq_sym Hrole) (eq_sym Hparts)).
  repeat split; try reflexivity;
    destruct (pack_message_line_pure (role m1) p) as [o1 Ho1];
    rewrite <- ?Hrole, !Ho1; reflexivity.
Qed.

Lemma rendering_deterministic_witness :
  result_of (to_string {| message_id := "a"; role := "user"; parts := [text_part "hi"] |})
    (world_of [] [])
  = result_of (to_string {| message_id := "b"; role := "user"; parts := [text_part "hi"] |})
      (set_session_rows (Some []) (world_of [] [])).
Proof.
  apply (rendering_deterministic
           {| message_id := "a"; role := "user"; parts := [text_part "hi"] |}
           {| message_id := "b"; role := "user"; parts := [text_part "hi"] |}
           (world_of [] []) (set_session_rows (Some []) (world_of [] [])));
    reflexivity.
Defined.

(** ** Properties of the health endpoint *)

(** C2: the health endpoint answers "ok" exactly when the three
    collaborator health checks (queue, storage, blob store) all return
    true; otherwise it answers with the label of the first unhealthy
    collaborator in that order.  Flipping any one check to false moves the
    answer away from "ok".  The endpoint changes nothing. *)
Theorem health_ok_iff_all_healthy (w : World) :
  (result_of health w = Val "ok"
   ↔ healthy w MQ_CLIENT = true ∧ healthy w DB_CLIENT = true ∧ healthy w S3_CLIENT = true)
  ∧ (healthy w MQ_CLIENT = false → result_of health w = Val "MQ consumer error")
  ∧ (healthy w MQ_CLIENT = true → healthy w DB_CLIENT = false →
     result_of health w = Val "DB client error")
  ∧ (healthy w MQ_CLIENT = true → healthy w DB_CLIENT = true →
     healthy w S3_CLIENT = false →
     result_of health w = Val "S3 client error")
  ∧ (∀ c : Collaborator, result_of health (mark_unhealthy c w) ≠ Val "ok")
  ∧ world_after health w = w.
Proof.
  assert (Hrun : ∀ v : World,
            health v
            = (Val (if negb (healthy v MQ_CLIENT) then "MQ consumer error"
                    else if negb (healthy v DB_CLIENT) then "DB client error"
                    else if negb (healthy v S3_CLIENT) then "S3 client error"
                    else "ok"), v)).
  { intros v. unfold health, health_check, bind, ret. cbn.
    destruct (healthy v MQ_CLIENT); cbn; [|reflexivity].
    destruct (healthy v DB_CLIENT); cbn; [|reflexivity].
    destruct (healthy v S3_CLIENT); reflexivity. }
  unfold result_of, world_after.
  split; [|split; [|split; [|split; [|split]]]].
  - rewrite Hrun. cbn [fst]. split.
    + intros Hok.
      destruct (healthy w MQ_CLIENT), (healthy w DB_CLIENT), (healthy w S3_CLIENT);
        cbn in Hok; try discriminate Hok. now repeat split.
    + intros (H1 & H2 & H3). now rewrite H1, H2, H3.
  - intros H1. now rewrite Hrun, H1.
  - intros H1 H2. now rewrite Hrun, H1, H2.
  - intros H1 H2 H3. now rewrite Hrun, H1, H2, H3.
  - intros c. rewrite Hrun. cbn [fst mark_unhealthy healthy].
    destruct c; repeat case_decide; try congruence; cbn [negb];
      repeat match goal with
             | |- context [ if negb ?b then _ else _ ] => destruct b; cbn [negb]
             end; discriminate.
  - now rewrite Hrun.
Qed.

Lemma health_ok_iff_all_healthy_witness :
  result_of health (world_of [] []) = Val "ok"
  ∧ result_of health (mark_unhealthy DB_CLIENT (world_of [] [])) = Val "DB client error".
Proof.
  split.
  - apply (proj1 (health_ok_iff_all_healthy (world_of [] []))). repeat split.
  - apply (proj1 (proj2 (proj2 (health_ok_iff_all_healthy
                                   (mark_unhealthy DB_CLIENT (world_of [] []))))));
      reflexivity.
Defined.

(** ** Properties of the project configuration lookup *)

Lemma dict_contains_lookup (d : pydict) (key : string) :
  dict_contains d key = true → ∃ v, dict_lookup d key = Some v.
Proof.
  induction d as [|[k v] d IH]; simpl; [discriminate|].
  destruct (String.eqb k key); eauto.
Qed.

Lemma lacks_project_config_spec (p : Project.t) :
  ¬ has_project_config p → lacks_project_config (Project.configs p) = true.
Proof.
  intros Hno. unfold lacks_project_config.
  destruct (Project.configs p) as [d|] eqn:Hcfg; [|reflexivity].
  destruct (dict_contains d "project_config") eqn:Hin; [|apply orb_true_r].
  destruct (dict_contains_lookup _ _ Hin) as [v Hv].
  exfalso. apply Hno. now exists d, v.
Qed.

Section ProjectConfigProperties.

Variable ProjectConfig : Type.
Variable DEFAULT_PROJECT_CONFIG : ProjectConfig.
Variable project_config_from_json : pyval -> Outcome ProjectConfig.

(** C4, as the code has it: while the storage answers, a project that
    exists without a project config yields a successful result carrying
    the default project config, and a missing project yields the
    rejection "Project not found: <project_id>".  Both leave the world
    as it was. *)
Theorem get_project_config_not_found
    (db_session : AsyncSession) (project_id : asUUID) (w : World) :
  storage_fault w = None →
  ((∀ p, p ∈ project_rows w → Project.id p ≠ project_id) →
     get_project_config ProjectConfig DEFAULT_PROJECT_CONFIG project_config_from_json
       db_session project_id w
     = (Val (Result.reject ("Project not found: " +:+ project_id)), w))
  ∧ ((∃ p, p ∈ project_rows w ∧ Project.id p = project_id) →
     (∀ p, p ∈ project_rows w → Project.id p = project_id → ¬ has_project_config p) →
     get_project_config ProjectConfig DEFAULT_PROJECT_CONFIG project_config_from_json
       db_session project_id w
     = (Val (Result.resolve DEFAULT_PROJECT_CONFIG), w)).
Proof.
  intros Hok. unfold get_project_config, select_project, bind, ret.
  rewrite Hok.
  destruct (List.find (fun p => String.eqb (Project.id p) project_id) (project_rows w))
    as [q|] eqn:Hfind.
  - apply find_some in Hfind as [Hq Hid].
    apply list_elem_of_In in Hq. apply String.eqb_eq in Hid.
    split.
    + intros Hnone. now destruct (Hnone q Hq).
    + intros _ Hlack. now rewrite (lacks_project_config_spec q (Hlack q Hq Hid)).
  - split; [reflexivity|].
    intros (p & Hp & Hid) _. exfalso.
    apply list_elem_of_In in Hp.
    pose proof (find_none _ _ Hfind p Hp) as Hne. cbn beta in Hne.
    apply String.eqb_neq in Hne. now apply Hne.
Qed.

End ProjectConfigProperties.

Lemma get_project_config_not_found_witness :
  get_project_config nat 0%nat (fun _ => Val 1%nat) the_session "p1"
    (world_of [] [Project.mk "p1" None])
  = (Val (Result.resolve 0%nat), world_of [] [Project.mk "p1" None]).
Proof.
  apply (proj2 (get_project_config_not_found nat 0%nat (fun _ => Val 1%nat) the_session "p1"
                  (world_of [] [Project.mk "p1" None]) eq_refl)).
  - exists (Project.mk "p1" None). split; [apply list_elem_of_here | reflexivity].
  - intros p Hp _ (d & v & Hcfg & _).
    apply list_elem_of_singleton in Hp. subst p. discriminate Hcfg.
Defined.

(** C4 as stated fails where the project itself is missing: the lookup in
    an empty table is a not-found condition, and the result is a
    rejection, not the default project config. *)
Lemma get_project_config_missing_project_rejects :
  (∀ p, p ∈ project_rows (world_of [] []) → Project.id p ≠ "p1")
  ∧ result_of (get_project_config nat 0%nat (fun _ => Val 1%nat) the_session "p1")
      (world_of [] [])
    = Val (Result.reject "Project not found: p1")
  ∧ result_of (get_project_config nat 0%nat (fun _ => Val 1%nat) the_session "p1")
      (world_of [] [])
    ≠ Val (Result.resolve 0%nat).
Proof.
  split; [|split].
  - intros p Hp. inversion Hp.
  - reflexivity.
  - discriminate.
Qed.

(** ** Properties of the session processor *)

Section Claiming.

Variable keep : Message.t -> bool.
Variable v : string.

Lemma orm_set_status_middle (pre rows : list Message.t) (r : Message.t) (w : World) :
  session_rows w = Some (pre ++ r :: rows) →
  orm_set_status (length pre) v w
  = (Val tt, add_trace [EvUpdateStatus (length pre) v]
               (set_session_rows (Some (pre ++ Message.set_status v r :: rows)) w)).
Proof.
  intros Hrows. unfold orm_set_status. rewrite Hrows.
  rewrite list_lookup_middle by reflexivity.
  replace (length pre) with (length pre + 0) at 2 by lia.
  now rewrite alter_app_r.
Qed.

Lemma mark_all_running (rows : list Message.t) :
  ∀ (pre : list Message.t) (i : nat) (w : World),
    i = length pre →
    session_rows w = Some (pre ++ rows) →
    for_each (refs_from keep rows i) (fun m => orm_set_status m v) w
    = (Val tt, add_trace (map (fun m => EvUpdateStatus m v) (refs_from keep rows i))
                 (set_session_rows (Some (pre ++ map (mark_where keep v) rows)) w)).
Proof.
  induction rows as [|r rows IH]; intros pre i w -> Hrows.
  - destruct w; cbn in *. subst. unfold add_trace, set_session_rows, ret; cbn.
    now rewrite !app_nil_r.
  - cbn [refs_from map]. unfold mark_where at 1. destruct (keep r).
    + cbn [for_each map]. unfold bind.
      rewrite (orm_set_status_middle _ _ _ _ Hrows).
      rewrite (IH (pre ++ [Message.set_status v r]) (S (length pre))).
      * destruct w; unfold add_trace, set_session_rows; cbn.
        now rewrite <- !List.app_assoc.
      * rewrite length_app. cbn. lia.
      * cbn. now rewrite <- List.app_assoc.
    + rewrite (IH (pre ++ [r]) (S (length pre)) w).
      * now rewrite <- List.app_assoc.
      * rewrite length_app. cbn. lia.
      * now rewrite <- List.app_assoc.
Qed.

Lemma snapshot_set_status (r : Message.t) : snapshot (Message.set_status v r) = snapshot r.
Proof. reflexivity. Qed.

Lemma snapshot_all (rows : list Message.t) :
  ∀ (pre : list Message.t) (i : nat) (acc : list MessageBlob) (w : World),
    i = length pre →
    session_rows w = Some (pre ++ map (mark_where keep v) rows) →
    comprehension_from (fun m => r <- orm_get m ;; ret (snapshot r))
      (refs_from keep rows i) acc w
    = (Val (acc ++ map snapshot (List.filter keep rows)), w).
Proof.
  induction rows as [|r rows IH]; intros pre i acc w -> Hrows.
  - cbn. unfold ret. now rewrite app_nil_r.
  - cbn [refs_from List.filter]. cbn [map] in Hrows.
    destruct (keep r) eqn:Hkeep.
    + cbn [comprehension_from map]. unfold bind at 1 2. unfold orm_get. rewrite Hrows.
      rewrite list_lookup_middle by reflexivity. unfold ret at 1.
      rewrite (IH (pre ++ [mark_where keep v r]) (S (length pre))).
      * unfold mark_where. rewrite Hkeep, snapshot_set_status.
        now rewrite <- List.app_assoc.
      * rewrite length_app. cbn. lia.
      * now rewrite <- List.app_assoc.
    + rewrite (IH (pre ++ [mark_where keep v r]) (S (length pre))).
      * reflexivity.
      * rewrite length_app. cbn. lia.
      * now rewrite <- List.app_assoc.
Qed.

End Claiming.

Lemma refs_from_lookup (keep : Message.t -> bool) (rows : list Message.t) :
  ∀ (pre : list Message.t) (i : nat),
    i = length pre →
    Forall2 (fun m r => (pre ++ rows) !! m = Some r)
      (refs_from keep rows i) (List.filter keep rows).
Proof.
  induction rows as [|r rows IH]; intros pre i ->; cbn [refs_from List.filter].
  - constructor.
  - assert (Hrest : Forall2 (fun m r' => (pre ++ r :: rows) !! m = Some r')
                      (refs_from keep rows (S (length pre))) (List.filter keep rows)).
    { specialize (IH (pre ++ [r]) (S (length pre))).
      rewrite <- List.app_assoc in IH. apply IH.
      rewrite length_app. cbn. lia. }
    destruct (keep r); [constructor|]; try exact Hrest.
    now apply list_lookup_middle.
Qed.

Lemma lookup_map {A B : Type} (f : A → B) (l : list A) :
  ∀ i, map f l !! i = f <$> l !! i.
Proof.
  induction l as [|x l IH]; intros [|i]; cbn; try reflexivity. apply IH.
Qed.

Lemma add_trace_nil (w : World) : add_trace [] w = w.
Proof. destruct w. unfold add_trace. cbn. now rewrite app_nil_r. Qed.

Lemma add_trace_add_trace (a b : list Event) (w : World) :
  add_trace b (add_trace a w) = add_trace (a ++ b) w.
Proof. unfold add_trace. cbn. now rewrite <- List.app_assoc. Qed.

(** The rendering loop only prints: it ends, normally or by an exception
    of the renderer, in the world it started in plus the printed lines. *)
Lemma render_all_prints (messages_data : list MessageBlob) :
  ∀ w : World,
    ∃ (out : Outcome unit) (lines : list string),
      render_all messages_data w = (out, add_trace (map EvPrint lines) w).
Proof.
  induction messages_data as [|m ms IH]; intros w.
  - exists (Val tt), []. cbn. unfold ret. now rewrite add_trace_nil.
  - destruct (to_string_pure (role m) (parts m)) as [[s|e] Hm].
    + destruct (IH (add_trace [EvPrint s] w)) as (out & lines & Hrest).
      exists out, (s :: lines).
      unfold render_all in *. cbn [for_each]. unfold bind at 1 2.
      rewrite (Hm m w eq_refl eq_refl).
      change (print s w) with (Val tt, add_trace [EvPrint s] w). cbv iota beta.
      rewrite Hrest. now rewrite add_trace_add_trace.
    + exists (Raise e), [].
      unfold render_all. cbn [for_each]. unfold bind.
      rewrite (Hm m w eq_refl eq_refl). cbn. now rewrite add_trace_nil.
Qed.

Lemma claim_pending_run (session_id : asUUID) (w : World) :
  storage_fault w = None →
  claim_pending session_id w
  = (Val (Some (map snapshot
                  (List.filter (matches session_id (value PENDING)) (message_rows w)))),
     add_trace
       ([EvBegin]
        ++ map (fun m => EvUpdateStatus m (value RUNNING))
             (refs_from (matches session_id (value PENDING)) (message_rows w) 0)
        ++ [EvCommit])
       (set_session_rows None
          (set_message_rows (map (claimed session_id) (message_rows w)) w))).
Proof.
  intros Hok. unfold claim_pending, get_session_context.
  unfold bind at 1.
  change (emit EvBegin (set_session_rows (Some (message_rows w)) w))
    with (Val tt, add_trace [EvBegin] (set_session_rows (Some (message_rows w)) w)).
  cbv iota beta.
  set (w1 := add_trace [EvBegin] (set_session_rows (Some (message_rows w)) w)).
  unfold bind at 1. unfold fetch_session_messages at 1.
  change (storage_fault w1) with (storage_fault w). rewrite Hok.
  change (session_rows w1) with (Some ([] ++ message_rows w)).
  cbn [Result.unpack Result.resolve Result.data Result.errors truthy app].
  unfold bind at 1.
  rewrite (mark_all_running (matches session_id "pending") (value RUNNING)
             (message_rows w) [] 0 w1 eq_refl eq_refl).
  cbn [app].
  set (w2 := add_trace _ _).
  unfold bind at 1. unfold comprehension.
  rewrite (snapshot_all (matches session_id "pending") (value RUNNING)
             (message_rows w) [] 0 [] w2 eq_refl eq_refl).
  cbn [app]. unfold ret at 1.
  subst w2 w1. destruct w. unfold bind, emit, ret, add_trace, set_session_rows,
    set_message_rows, claimed, mark_where. cbn.
  now rewrite <- ?List.app_assoc.
Qed.

(** C1: when the fetch of the pending messages succeeds, the transaction
    of [process_session_pending_message] sets the status of every fetched
    message to RUNNING and materializes, for every fetched message and in
    fetch order, the snapshot of its id, role and parts, all before it
    closes: the block returns the snapshots, the committed table is the old
    one with exactly the fetched rows set to RUNNING, the status writes lie
    between the begin and the commit, and what follows the transaction is
    the rendering of those snapshots. *)
Theorem claiming_marks_running_and_snapshots (session_id : asUUID) (w : World) :
  storage_fault w = None →
  let fetched := List.filter (matches session_id (value PENDING)) (message_rows w) in
  let refs := refs_from (matches session_id (value PENDING)) (message_rows w) 0 in
  ∃ w' : World,
    claim_pending session_id w = (Val (Some (map snapshot fetched)), w')
    ∧ Forall2 (fun m r => message_rows w !! m = Some r) refs fetched
    ∧ message_rows w' = map (claimed session_id) (message_rows w)
    ∧ Forall2 (fun m r =>
                 message_rows w' !! m = Some (Message.set_status (value RUNNING) r))
        refs fetched
    ∧ session_rows w' = None
    ∧ trace w'
      = trace w ++ [EvBegin]
          ++ map (fun m => EvUpdateStatus m (value RUNNING)) refs ++ [EvCommit]
    ∧ process_session_pending_message session_id w
      = render_all (map snapshot fetched) w'
    ∧ message_rows (world_after (process_session_pending_message session_id) w)
      = map (claimed session_id) (message_rows w).
Proof.
  intros Hok fetched refs.
  pose proof (claim_pending_run session_id w Hok) as Hrun.
  fold fetched refs in Hrun.
  eexists. split; [exact Hrun|].
  assert (Hrefs : Forall2 (fun m r => message_rows w !! m = Some r) refs fetched).
  { apply (refs_from_lookup _ (message_rows w) [] 0 eq_refl). }
  split; [exact Hrefs|]. split; [reflexivity|]. split.
  - unfold add_trace, set_session_rows, set_message_rows. cbn [message_rows].
    assert (Hkeep : Forall (fun r => matches session_id (value PENDING) r = true) fetched).
    { apply List.Forall_forall. intros r Hr. now apply filter_In in Hr as [_ Hr]. }
    clear Hrun. induction Hrefs as [|m r ms rs Hm _ IH]; constructor.
    + unfold MessageRef in *. rewrite lookup_map, Hm. cbn. unfold claimed, mark_where.
      apply Forall_inv in Hkeep. now rewrite Hkeep.
    + apply IH. now apply Forall_inv_tail in Hkeep.
  - split; [reflexivity|]. split; [reflexivity|].
    assert (Hproc : process_session_pending_message session_id w
                    = render_all (map snapshot fetched)
                        (add_trace
                           ([EvBegin]
                            ++ map (fun m => EvUpdateStatus m (value RUNNING)) refs
                            ++ [EvCommit])
                           (set_session_rows None
                              (set_message_rows
                                 (map (claimed session_id) (message_rows w)) w)))).
    { unfold process_session_pending_message, bind. now rewrite Hrun. }
    split; [exact Hproc|].
    unfold world_after. rewrite Hproc.
    destruct (render_all_prints (map snapshot fetched)
                (add_trace
                   ([EvBegin]
                    ++ map (fun m => EvUpdateStatus m (value RUNNING)) refs
                    ++ [EvCommit])
                   (set_session_rows None
                      (set_message_rows
                         (map (claimed session_id) (message_rows w)) w))))
      as (out & lines & Hrender).
    now rewrite Hrender.
Qed.

Lemma claiming_marks_running_and_snapshots_witness :
  ∃ w' : World,
    claim_pending "s1" (world_of sample_messages [])
    = (Val (Some [ {| message_id := "m1"; role := "user"; parts := [text_part "hi"] |};
                   {| message_id := "m3"; role := "assistant";
                      parts := [file_part "file" "a.png"] |} ]), w')
    ∧ message_rows w'
      = [ Message.mk "m1" "s1" "user" [text_part "hi"] "running";
          Message.mk "m2" "s2" "user" [text_part "elsewhere"] "pending";
          Message.mk "m3" "s1" "assistant" [file_part "file" "a.png"] "running";
          Message.mk "m4" "s1" "user" [text_part "done"] "running" ]
    ∧ trace w'
      = [EvBegin; EvUpdateStatus 0 "running"; EvUpdateStatus 2 "running"; EvCommit].
Proof.
  destruct (claiming_marks_running_and_snapshots "s1" (world_of sample_messages []) eq_refl)
    as (w' & Hblock & _ & Hrows & _ & _ & Htrace & _).
  exists w'. split; [exact Hblock|]. split; [exact Hrows | exact Htrace].
Defined.

(** C3: when the fetch of the pending messages is rejected,
    [process_session_pending_message] logs the error and returns at once:
    the transaction block yields no snapshot, the table of messages is as
    before, and the only events are the begin of the transaction, the error
    log entry and the closing of the unchanged transaction; no status
    write and no printed transcript occur. *)
Theorem fetch_rejection_aborts (session_id : asUUID) (e : string) (w : World) :
  storage_fault w = Some e →
  ∃ w' : World,
    process_session_pending_message session_id w = (Val tt, w')
    ∧ claim_pending session_id w = (Val None, w')
    ∧ message_rows w' = message_rows w
    ∧ session_rows w' = None
    ∧ trace w'
      = trace w
          ++ [ EvBegin;
               EvLogError ("Exception while fetching session messages: "
                             +:+ py_str (VList [VStr e]));
               EvCommit ].
Proof.
  intros Hfault.
  assert (Hrun : claim_pending session_id w
                 = (Val None,
                    add_trace
                      [ EvBegin;
                        EvLogError ("Exception while fetching session messages: "
                                      +:+ py_str (VList [VStr e]));
                        EvCommit ]
                      (set_session_rows None w))).
  { unfold claim_pending, get_session_context, bind, fetch_session_messages,
      emit, LOG_error, emit, ret.
    cbn. rewrite Hfault. cbn.
    destruct w; unfold add_trace, set_session_rows; cbn in *. subst.
    now rewrite <- !List.app_assoc. }
  eexists. split; [|split; [exact Hrun|]].
  - unfold process_session_pending_message, bind. now rewrite Hrun.
  - repeat split.
Qed.

Lemma fetch_rejection_aborts_witness :
  ∃ w' : World,
    process_session_pending_message "s1"
      (with_storage_fault "connection lost" (world_of sample_messages []))
    = (Val tt, w')
    ∧ message_rows w' = sample_messages
    ∧ trace w'
      = [ EvBegin;
          EvLogError "Exception while fetching session messages: ['connection lost']";
          EvCommit ].
Proof.
  destruct (fetch_rejection_aborts "s1" "connection lost"
              (with_storage_fault "connection lost" (world_of sample_messages [])) eq_refl)
    as (w' & Hproc & _ & Hrows & _ & Htrace).
  exists w'. split; [exact Hproc|]. split; [exact Hrows | exact Htrace].
Defined.

(** ** More on the renderer *)

Lemma pack_message_line_some_inv (role : string) (p : Part) (w w' : World) (line : string) :
  pack_message_line role p w = (Val (Some line), w') →
  type p ≠ "tool-result" ∧ well_formed_part p.
Proof.
  unfold pack_message_line. intros Hrun.
  destruct (negb (in_STRING_TYPES (type p))) eqn:Hin.
  - apply negb_true_iff in Hin. split.
    + intros Hkind. rewrite Hkind in Hin. vm_compute in Hin. discriminate Hin.
    + intros Hkind. rewrite Hkind in Hin. vm_compute in Hin. discriminate Hin.
  - destruct (String.eqb_spec (type p) "text") as [Htext|_].
    + split; intros Hkind; rewrite Hkind in Htext; discriminate Htext.
    + destruct (String.eqb_spec (type p) "tool-call") as [Hcall|Hncall].
      * split; [intros Hkind; rewrite Hkind in Hcall; discriminate Hcall|].
        intros _. unfold meta_getitem, bind, ret, raise in Hrun.
        destruct (meta p) as [d|] eqn:Hmeta; [|discriminate Hrun].
        destruct (dict_lookup d "function_name") as [fn|] eqn:Hfn; [|discriminate Hrun].
        destruct (dict_lookup d "parameters") as [ps|] eqn:Hps; [|discriminate Hrun].
        now exists d, fn, ps.
      * discriminate Hrun.
Qed.

Lemma all_lines_inr (items : list (option string)) (ss : list string) :
  all_lines items = inr ss → items = map Some ss.
Proof.
  revert ss. induction items as [|[s|] items IH]; intros ss; cbn.
  - now intros [= <-].
  - destruct (all_lines items) as [k|ss']; [discriminate|].
    intros [= <-]. cbn. now rewrite (IH ss' eq_refl).
  - discriminate.
Qed.

Lemma lines_in_part_order_inv (role : string) (ps : list Part) :
  ∀ (lines : list string) (w w' : World),
    lines_in_part_order role ps w = (Val (map Some lines), w') →
    Forall2 (fun p l => pack_message_line role p w = (Val (Some l), w)) ps lines.
Proof.
  induction ps as [|p ps IH]; intros lines w w'; cbn.
  - unfold ret. intros [= Hl _]. destruct lines; [constructor | discriminate Hl].
  - unfold bind, ret.
    destruct (pack_message_line_pure role p) as [o Hp]. rewrite Hp.
    destruct o as [line|e]; [|discriminate].
    destruct (lines_in_part_order_pure role ps) as [o' Hps]. rewrite Hps.
    destruct o' as [rest|e]; [|discriminate].
    intros [= Hl _]. destruct lines as [|l lines]; [discriminate Hl|].
    cbn in Hl. injection Hl as -> ->.
    constructor; [apply Hp|]. apply (IH lines w w). apply Hps.
Qed.

(** A transcript that is returned is the join of one line per part. *)
Lemma to_string_inv (self : MessageBlob) (s : string) (w w' : World) :
  to_string self w = (Val s, w') →
  ∃ lines,
    Forall2 (fun p l => pack_message_line (role self) p w = (Val (Some l), w))
      (parts self) lines
    ∧ s = String.concat newline lines.
Proof.
  rewrite to_string_transcript. unfold transcript, bind, newline_joined.
  destruct (lines_in_part_order (role self) (parts self) w) as [[items|e] w1] eqn:Hl;
    [|discriminate].
  destruct (all_lines items) as [k|ss] eqn:Hall; [discriminate|].
  unfold ret. intros [= <- _].
  apply all_lines_inr in Hall. subst items.
  exists ss. split; [|reflexivity]. now apply (lines_in_part_order_inv _ _ _ _ _ Hl).
Qed.

Lemma to_string_returns_inv (self : MessageBlob) (s : string) (w w' : World) :
  to_string self w = (Val s, w') →
  Forall (fun p => type p ≠ "tool-result" ∧ well_formed_part p) (parts self).
Proof.
  intros Hs. destruct (to_string_inv _ _ _ _ Hs) as (lines & Hlines & _).
  induction Hlines as [|p l ps lines Hp _ IH]; constructor; [|exact IH].
  exact (pack_message_line_some_inv _ _ _ _ _ Hp).
Qed.

(** X1: [to_string] returns a string exactly for the messages none of
    whose parts is a tool-result and whose tool-call parts carry both
    metadata keys; for every other message it raises. *)
Theorem to_string_returns_iff (self : MessageBlob) (w : World) :
  (∃ s, to_string self w = (Val s, w))
  ↔ Forall (fun p => type p ≠ "tool-result" ∧ well_formed_part p) (parts self).
Proof.
  split.
  - intros [s Hs]. exact (to_string_returns_inv _ _ _ _ Hs).
  - apply to_string_returns.
Qed.

Lemma to_string_returns_iff_witness :
  ∃ s, to_string {| message_id := "m"; role := "user";
                    parts := [text_part "a"; tool_call_part "f" VNone] |} (world_of [] [])
       = (Val s, world_of [] []).
Proof.
  apply (proj2 (to_string_returns_iff
                  {| message_id := "m"; role := "user";
                     parts := [text_part "a"; tool_call_part "f" VNone] |} (world_of [] []))).
  repeat constructor; try discriminate.
  intros _. exists [("function_name", VStr "f"); ("parameters", VNone)], (VStr "f"), VNone.
  repeat split.
Defined.

(** X2: every line the renderer produces opens with the role in angle
    brackets and a space. *)
Theorem pack_message_line_prefix (role : string) (p : Part) (w w' : World) (line : string) :
  pack_message_line role p w = (Val (Some line), w') →
  ∃ rest, line = ("<" +:+ role +:+ "> ") +:+ rest.
Proof.
  unfold pack_message_line.
  destruct (negb (in_STRING_TYPES (type p))).
  - intros [= <- _]. eexists. rewrite !append_assoc. reflexivity.
  - destruct (String.eqb (type p) "text").
    + intros [= <- _]. eexists. rewrite !append_assoc. reflexivity.
    + destruct (String.eqb (type p) "tool-call"); [|discriminate].
      unfold meta_getitem, bind, ret, raise.
      destruct (meta p) as [d|]; [|discriminate].
      destruct (dict_lookup d "function_name") as [fn|]; [|discriminate].
      destruct (dict_lookup d "parameters") as [ps|]; [|discriminate].
      intros [= <- _]. eexists. rewrite !append_assoc. reflexivity.
Qed.

Lemma pack_message_line_prefix_witness :
  ∃ rest, "<user> [file file: a.png]" = ("<" +:+ "user" +:+ "> ") +:+ rest.
Proof.
  apply (pack_message_line_prefix "user" (file_part "file" "a.png")
           (world_of [] []) (world_of [] []) "<user> [file file: a.png]").
  reflexivity.
Defined.

Lemma concat_app (sep : string) (l1 l2 : list string) :
  l1 ≠ [] → l2 ≠ [] →
  String.concat sep (l1 ++ l2) = String.concat sep l1 +:+ sep +:+ String.concat sep l2.
Proof.
  intros H1 H2. induction l1 as [|x l1 IH]; [congruence|].
  destruct l1 as [|y l1].
  - destruct l2 as [|z l2]; [congruence | reflexivity].
  - change (x +:+ sep +:+ String.concat sep ((y :: l1) ++ l2)
            = (x +:+ sep +:+ String.concat sep (y :: l1)) +:+ sep +:+ String.concat sep l2).
    rewrite IH by discriminate. now rewrite !append_assoc.
Qed.

(** X3: transcripts compose.  When two non-empty runs of parts each have
    a transcript under the same role, the transcript of their
    concatenation is the two transcripts joined by one newline. *)
Theorem to_string_app (id1 id2 id3 : asUUID) (role0 : string) (ps1 ps2 : list Part)
    (s1 s2 : string) (w : World) :
  ps1 ≠ [] → ps2 ≠ [] →
  to_string {| message_id := id1; role := role0; parts := ps1 |} w = (Val s1, w) →
  to_string {| message_id := id2; role := role0; parts := ps2 |} w = (Val s2, w) →
  to_string {| message_id := id3; role := role0; parts := ps1 ++ ps2 |} w
  = (Val (s1 +:+ newline +:+ s2), w).
Proof.
  intros Hne1 Hne2 Hs1 Hs2.
  destruct (to_string_inv _ _ _ _ Hs1) as (l1 & Hl1 & ->).
  destruct (to_string_inv _ _ _ _ Hs2) as (l2 & Hl2 & ->).
  cbn [role parts] in Hl1, Hl2.
  assert (H1 : l1 ≠ []) by (intros ->; inversion Hl1; congruence).
  assert (H2 : l2 ≠ []) by (intros ->; inversion Hl2; congruence).
  rewrite <- (concat_app newline l1 l2 H1 H2).
  rewrite to_string_transcript. unfold transcript, bind, newline_joined. cbn [role parts].
  rewrite (lines_in_part_order_Forall2 role0 (ps1 ++ ps2) (l1 ++ l2) w).
  - now rewrite all_lines_Some.
  - now apply Forall2_app.
Qed.

Lemma to_string_app_witness :
  to_string {| message_id := "c"; role := "user";
               parts := [text_part "hi"] ++ [file_part "file" "a.png"] |} (world_of [] [])
  = (Val ("<user> hi" +:+ newline +:+ "<user> [file file: a.png]"), world_of [] []).
Proof.
  apply (to_string_app "a" "b" "c" "user" [text_part "hi"] [file_part "file" "a.png"]
           "<user> hi" "<user> [file file: a.png]" (world_of [] []));
    try discriminate; reflexivity.
Defined.

(** ** More on the session processor *)

(** The rendering loop over messages that all have a transcript prints
    the transcripts in order and returns. *)
Lemma render_all_ok (messages_data : list MessageBlob) (transcripts : list string) :
  Forall2 (fun m s => ∀ w, to_string m w = (Val s, w)) messages_data transcripts →
  ∀ w, render_all messages_data w = (Val tt, add_trace (map EvPrint transcripts) w).
Proof.
  induction 1 as [|m s ms ss Hm _ IH]; intros w.
  - cbn. unfold ret. now rewrite add_trace_nil.
  - unfold render_all in *. cbn [for_each map]. unfold bind at 1 2. rewrite Hm.
    change (print s w) with (Val tt, add_trace [EvPrint s] w). cbv iota beta.
    rewrite IH. now rewrite add_trace_add_trace.
Qed.

(** The loop stops at the first message without a transcript: the
    exception of the renderer leaves the loop, and the later messages are
    not printed. *)
Lemma render_all_fail (before after : list MessageBlob) (m : MessageBlob)
    (transcripts : list string) (e : exn) :
  Forall2 (fun m s => ∀ w, to_string m w = (Val s, w)) before transcripts →
  (∀ w, to_string m w = (Raise e, w)) →
  ∀ w, render_all (before ++ m :: after) w
       = (Raise e, add_trace (map EvPrint transcripts) w).
Proof.
  intros Hbefore Hm. induction Hbefore as [|m0 s ms ss Hm0 _ IH]; intros w.
  - unfold render_all. cbn [app for_each map]. unfold bind. rewrite Hm.
    now rewrite add_trace_nil.
  - unfold render_all in *. cbn [app for_each map]. unfold bind at 1 2. rewrite Hm0.
    change (print s w) with (Val tt, add_trace [EvPrint s] w). cbv iota beta.
    rewrite IH. now rewrite add_trace_add_trace.
Qed.

(** What an invocation does when the storage answers: the claim, then the
    rendering loop over the snapshots. *)
Lemma process_run (session_id : asUUID) (w : World) :
  storage_fault w = None →
  process_session_pending_message session_id w
  = render_all
      (map snapshot (List.filter (matches session_id (value PENDING)) (message_rows w)))
      (add_trace
         ([EvBegin]
          ++ map (fun m => EvUpdateStatus m (value RUNNING))
               (refs_from (matches session_id (value PENDING)) (message_rows w) 0)
          ++ [EvCommit])
         (set_session_rows None
            (set_message_rows (map (claimed session_id) (message_rows w)) w))).
Proof.
  intros Hok. unfold process_session_pending_message, bind.
  now rewrite (claim_pending_run session_id w Hok).
Qed.

Lemma to_string_any_world (m : MessageBlob) (o : Outcome string) (w : World) :
  result_of (to_string m) w = o → ∀ w0, to_string m w0 = (o, w0).
Proof.
  destruct (to_string_pure (role m) (parts m)) as [o' Ho].
  unfold result_of. rewrite (Ho m w eq_refl eq_refl). cbn. intros <- w0.
  apply (Ho m w0 eq_refl eq_refl).
Qed.

Lemma render_all_raises (messages_data : list MessageBlob) :
  Exists (fun m => ∃ e w, result_of (to_string m) w = Raise e) messages_data →
  ∀ w, ∃ e lines, render_all messages_data w = (Raise e, add_trace (map EvPrint lines) w).
Proof.
  induction messages_data as [|m ms IH]; intros Hex w; [inversion Hex|].
  destruct (result_of (to_string m) w) as [s|e] eqn:Hm.
  - assert (Htail : Exists (fun m => ∃ e w, result_of (to_string m) w = Raise e) ms).
    { apply Exists_cons in Hex as [(e & w0 & He)|Htail]; [|exact Htail].
      pose proof (to_string_any_world _ _ _ He w) as Hw.
      unfold result_of in Hm. rewrite Hw in Hm. discriminate Hm. }
    destruct (IH Htail (add_trace [EvPrint s] w)) as (e & lines & Hrest).
    exists e, (s :: lines).
    unfold render_all in *. cbn [for_each map]. unfold bind at 1 2.
    rewrite (to_string_any_world _ _ _ Hm w).
    change (print s w) with (Val tt, add_trace [EvPrint s] w). cbv iota beta.
    rewrite Hrest. now rewrite add_trace_add_trace.
  - exists e, []. unfold render_all. cbn [for_each map]. unfold bind.
    rewrite (to_string_any_world _ _ _ Hm w). now rewrite add_trace_nil.
Qed.

Lemma process_rows (session_id : asUUID) (w : World) :
  storage_fault w = None →
  message_rows (world_after (process_session_pending_message session_id) w)
  = map (claimed session_id) (message_rows w)
  ∧ session_rows (world_after (process_session_pending_message session_id) w) = None
  ∧ storage_fault (world_after (process_session_pending_message session_id) w) = None.
Proof.
  intros Hok. unfold world_after. rewrite (process_run session_id w Hok).
  match goal with
  | |- context [render_all ?ms ?w1] =>
      destruct (render_all_prints ms w1) as (out & lines & Hrender); rewrite Hrender
  end.
  cbn. now rewrite Hok.
Qed.

Lemma matches_claimed (session_id : asUUID) (r : Message.t) :
  matches session_id (value PENDING) (claimed session_id r) = false.
Proof.
  unfold claimed, mark_where.
  destruct (matches session_id (value PENDING) r) eqn:Hm; [|exact Hm].
  unfold matches. cbn. apply andb_false_r.
Qed.

Lemma filter_claimed (session_id : asUUID) (rows : list Message.t) :
  List.filter (matches session_id (value PENDING)) (map (claimed session_id) rows) = [].
Proof.
  induction rows as [|r rows IH]; [reflexivity|].
  cbn [map List.filter]. now rewrite matches_claimed.
Qed.

Lemma refs_from_claimed (session_id : asUUID) (rows : list Message.t) :
  ∀ i, refs_from (matches session_id (value PENDING)) (map (claimed session_id) rows) i = [].
Proof.
  induction rows as [|r rows IH]; intros i; [reflexivity|].
  cbn [map refs_from]. now rewrite matches_claimed.
Qed.

Lemma claimed_idempotent (session_id : asUUID) (r : Message.t) :
  claimed session_id (claimed session_id r) = claimed session_id r.
Proof.
  unfold claimed at 1. unfold mark_where. now rewrite matches_claimed.
Qed.

(** X4: claiming writes nothing but the status, and only to the pending
    rows of the session.  After an invocation the table has the same
    length; every row keeps its id, session, role and parts; a row of
    another session, or one that was not pending, is the row it was; a
    pending row of the session is running. *)
Theorem claiming_touches_only_status (session_id : asUUID) (w : World) :
  storage_fault w = None →
  let rows' := message_rows (world_after (process_session_pending_message session_id) w) in
  length rows' = length (message_rows w)
  ∧ ∀ (i : nat) (r : Message.t),
      message_rows w !! i = Some r →
      ∃ r',
        rows' !! i = Some r'
        ∧ Message.id r' = Message.id r
        ∧ Message.session_id r' = Message.session_id r
        ∧ Message.role r' = Message.role r
        ∧ Message.parts r' = Message.parts r
        ∧ (Message.session_id r ≠ session_id
           ∨ Message.session_task_process_status r ≠ value PENDING → r' = r)
        ∧ (Message.session_id r = session_id →
           Message.session_task_process_status r = value PENDING →
           Message.session_task_process_status r' = value RUNNING).
Proof.
  intros Hok rows'. subst rows'.
  destruct (process_rows session_id w Hok) as (-> & _ & _).
  split; [apply length_map|].
  intros i r Hr. exists (claimed session_id r).
  split; [now rewrite lookup_map, Hr|].
  unfold claimed, mark_where, matches.
  destruct (String.eqb_spec (Message.session_id r) session_id) as [Hs|Hs];
    destruct (String.eqb_spec (Message.session_task_process_status r) (value PENDING))
      as [Hp|Hp]; cbn in *; repeat split; try reflexivity; try congruence;
    try (intros [H|H]; congruence).
Qed.

Lemma claiming_touches_only_status_witness :
  length (message_rows (world_after (process_session_pending_message "s1")
                          (world_of sample_messages [])))
  = 4.
Proof.
  apply (claiming_touches_only_status "s1" (world_of sample_messages []) eq_refl).
Defined.

(** X5: a claim is taken once.  After an invocation for a session no row
    of that session is pending, and a second invocation finds nothing: it
    writes no status, prints nothing, and leaves the table as the first
    one left it. *)
Theorem second_invocation_claims_nothing (session_id : asUUID) (w : World) :
  storage_fault w = None →
  let w1 := world_after (process_session_pending_message session_id) w in
  List.filter (matches session_id (value PENDING)) (message_rows w1) = []
  ∧ ∃ w2,
      process_session_pending_message session_id w1 = (Val tt, w2)
      ∧ message_rows w2 = message_rows w1
      ∧ trace w2 = trace w1 ++ [EvBegin; EvCommit].
Proof.
  intros Hok w1.
  destruct (process_rows session_id w Hok) as (Hrows & _ & Hok1). fold w1 in Hrows, Hok1.
  split; [rewrite Hrows; apply filter_claimed|].
  eexists. split.
  - rewrite (process_run session_id w1 Hok1).
    rewrite Hrows, filter_claimed, refs_from_claimed. cbn [map app]. reflexivity.
  - cbn. split; [|reflexivity].
    rewrite Hrows, map_map. apply map_ext. intros r. apply claimed_idempotent.
Qed.

Lemma second_invocation_claims_nothing_witness :
  List.filter (matches "s1" (value PENDING))
    (message_rows (world_after (process_session_pending_message "s1")
                     (world_of sample_messages [])))
  = [].
Proof.
  apply (second_invocation_claims_nothing "s1" (world_of sample_messages []) eq_refl).
Defined.

Lemma Forall2_map_l {A B C : Type} (f : A → B) (P : B → C → Prop) (xs : list A) (ys : list C) :
  Forall2 (fun x y => P (f x) y) xs ys → Forall2 P (map f xs) ys.
Proof. induction 1; cbn [map]; constructor; assumption. Qed.

(** X6: an invocation from fetch to print.  When the storage answers and
    every pending message of the session has only renderable parts, the
    invocation returns normally and its events are, in this order: the
    begin of the transaction, one status write per fetched message, the
    commit, and then one printed transcript per fetched message, in fetch
    order. *)
Theorem process_prints_transcripts (session_id : asUUID) (w : World) :
  storage_fault w = None →
  let fetched := List.filter (matches session_id (value PENDING)) (message_rows w) in
  let refs := refs_from (matches session_id (value PENDING)) (message_rows w) 0 in
  Forall (fun r => Forall (fun p => type p ≠ "tool-result" ∧ well_formed_part p)
                     (Message.parts r)) fetched →
  ∃ (transcripts : list string) (w' : World),
    Forall2 (fun r s => ∀ w0, to_string (snapshot r) w0 = (Val s, w0)) fetched transcripts
    ∧ process_session_pending_message session_id w = (Val tt, w')
    ∧ trace w'
      = trace w ++ [EvBegin] ++ map (fun m => EvUpdateStatus m (value RUNNING)) refs
          ++ [EvCommit] ++ map EvPrint transcripts.
Proof.
  intros Hok fetched refs Hfetched.
  assert (Hts : ∃ transcripts,
             Forall2 (fun r s => ∀ w0, to_string (snapshot r) w0 = (Val s, w0))
               fetched transcripts).
  { induction Hfetched as [|r rs Hr _ [ts IH]].
    - exists []. constructor.
    - destruct (to_string_returns (snapshot r) w Hr) as [s Hs].
      exists (s :: ts). constructor; [|exact IH].
      apply (to_string_any_world _ _ w). unfold result_of. now rewrite Hs. }
  destruct Hts as [transcripts Hts].
  exists transcripts. eexists. split; [exact Hts|]. split.
  - rewrite (process_run session_id w Hok). fold fetched refs.
    apply render_all_ok.
    exact (Forall2_map_l snapshot (fun m s => ∀ w0, to_string m w0 = (Val s, w0))
             fetched transcripts Hts).
  - cbn. rewrite <- List.app_assoc. cbn [app]. now rewrite <- List.app_assoc.
Qed.

Lemma process_prints_transcripts_witness :
  ∃ (transcripts : list string) (w' : World),
    Forall2 (fun r s => ∀ w0, to_string (snapshot r) w0 = (Val s, w0))
      (List.filter (matches "s1" (value PENDING)) sample_messages) transcripts
    ∧ process_session_pending_message "s1" (world_of sample_messages []) = (Val tt, w')
    ∧ trace w'
      = [] ++ [EvBegin] ++ map (fun m => EvUpdateStatus m (value RUNNING)) [0; 2]
          ++ [EvCommit] ++ map EvPrint transcripts.
Proof.
  apply (process_prints_transcripts "s1" (world_of sample_messages []) eq_refl).
  repeat constructor; discriminate.
Defined.

(** X7: a message that cannot be rendered is lost to the pipeline.  When
    some pending message of the session has a tool-result part, the
    invocation ends in an exception, raised after the commit: the fetched
    messages stay RUNNING in the table, and no pending message is left
    for a later invocation to pick up. *)
Theorem process_render_failure_keeps_claim (session_id : asUUID) (w : World) :
  storage_fault w = None →
  Exists (fun r => Exists (fun p => type p = "tool-result") (Message.parts r))
    (List.filter (matches session_id (value PENDING)) (message_rows w)) →
  ∃ (e : exn) (w' : World),
    process_session_pending_message session_id w = (Raise e, w')
    ∧ message_rows w' = map (claimed session_id) (message_rows w)
    ∧ List.filter (matches session_id (value PENDING)) (message_rows w') = []
    ∧ ∃ printed,
        trace w'
        = trace w ++ [EvBegin]
            ++ map (fun m => EvUpdateStatus m (value RUNNING))
                 (refs_from (matches session_id (value PENDING)) (message_rows w) 0)
            ++ [EvCommit] ++ map EvPrint printed.
Proof.
  intros Hok Hbad.
  assert (Hex : Exists (fun m => ∃ e w0, result_of (to_string m) w0 = Raise e)
                  (map snapshot
                     (List.filter (matches session_id (value PENDING)) (message_rows w)))).
  { apply List.Exists_exists in Hbad as (r & Hr & Hpart).
    apply List.Exists_exists. exists (snapshot r). split; [now apply in_map|].
    destruct (result_of (to_string (snapshot r)) w) as [s|e] eqn:Hs; [|eauto].
    exfalso.
    assert (Hall : Forall (fun p => type p ≠ "tool-result" ∧ well_formed_part p)
                     (parts (snapshot r))).
    { apply (to_string_returns_inv (snapshot r) s w w).
      apply (to_string_any_world _ _ _ Hs). }
    apply List.Exists_exists in Hpart as (p & Hp & Hkind).
    rewrite List.Forall_forall in Hall. now destruct (Hall p Hp). }
  rewrite (process_run session_id w Hok).
  match goal with
  | |- context [render_all ?ms ?w1] =>
      destruct (render_all_raises ms Hex w1) as (e & lines & Hrender)
  end.
  exists e. eexists. split; [exact Hrender|].
  cbn. split; [reflexivity|]. split; [apply filter_claimed|].
  exists lines. rewrite <- List.app_assoc. cbn [app]. now rewrite <- List.app_assoc.
Qed.

Lemma process_render_failure_keeps_claim_witness :
  ∃ (e : exn) (w' : World),
    process_session_pending_message "s1" (world_of stuck_messages []) = (Raise e, w')
    ∧ message_rows w'
      = [ Message.mk "m1" "s1" "user" [text_part "hi"] "running";
          Message.mk "m2" "s1" "tool" [tool_result_part "42"] "running";
          Message.mk "m3" "s1" "assistant" [text_part "bye"] "running" ].
Proof.
  destruct (process_render_failure_keeps_claim "s1" (world_of stuck_messages []) eq_refl)
    as (e & w' & Hrun & Hrows & _).
  - apply Exists_cons_tl. apply Exists_cons_hd. apply Exists_cons_hd. reflexivity.
  - exists e, w'. split; [exact Hrun | exact Hrows].
Defined.

(** ** More on the project configuration lookup *)

Lemma dict_lookup_contains (d : pydict) (key : string) (v : pyval) :
  dict_lookup d key = Some v → dict_contains d key = true ∧ truthy d = true.
Proof.
  destruct d as [|[k x] d]; [discriminate|]. intros Hv. split; [|reflexivity].
  revert Hv. generalize ((k, x) :: d). clear. intros d.
  induction d as [|[k x] d IH]; cbn; [discriminate|].
  destruct (String.eqb k key); [reflexivity | exact IH].
Qed.

Section MoreProjectConfigProperties.

Variable ProjectConfig : Type.
Variable DEFAULT_PROJECT_CONFIG : ProjectConfig.
Variable project_config_from_json : pyval -> Outcome ProjectConfig.

(** X8: while the storage answers, [get_project_config] returns a
    rejection exactly when no project row has the id; whenever a project
    exists, a result that is returned is a success. *)
Theorem get_project_config_rejects_iff_missing
    (db_session : AsyncSession) (project_id : asUUID) (w : World) :
  storage_fault w = None →
  ((∃ r, result_of (get_project_config ProjectConfig DEFAULT_PROJECT_CONFIG
                      project_config_from_json db_session project_id) w = Val r
         ∧ Result.errors r ≠ [])
   ↔ ∀ p, p ∈ project_rows w → Project.id p ≠ project_id).
Proof.
  intros Hok. unfold result_of, get_project_config, select_project, bind, ret, raise.
  rewrite Hok.
  destruct (List.find (fun p => String.eqb (Project.id p) project_id) (project_rows w))
    as [q|] eqn:Hfind.
  - apply find_some in Hfind as [Hq Hid].
    apply list_elem_of_In in Hq. apply String.eqb_eq in Hid.
    split.
    + intros (r & Hr & Herr). exfalso.
      destruct (lacks_project_config (Project.configs q)).
      * cbn in Hr. injection Hr as <-. now apply Herr.
      * destruct (dict_lookup (default [] (Project.configs q)) "project_config") as [v|];
          [|discriminate Hr].
        destruct (project_config_from_json v) as [cfg|e]; [|discriminate Hr].
        cbn in Hr. injection Hr as <-. now apply Herr.
    + intros Hnone. now destruct (Hnone q Hq).
  - split.
    + intros _ p Hp Hid. apply list_elem_of_In in Hp.
      pose proof (find_none _ _ Hfind p Hp) as Hne. cbn beta in Hne.
      apply String.eqb_neq in Hne. now apply Hne.
    + intros _. eexists. split; [reflexivity | discriminate].
Qed.

(** X9: a stored project config is what the caller gets.  When the
    project row carries a value under [project_config], the result is the
    success built from that value, or the exception of its construction;
    the default config is not substituted, and the world is unchanged. *)
Theorem get_project_config_uses_stored_config
    (db_session : AsyncSession) (project_id : asUUID) (w : World)
    (p : Project.t) (d : pydict) (v : pyval) :
  storage_fault w = None →
  p ∈ project_rows w →
  (∀ q, q ∈ project_rows w → Project.id q = project_id → q = p) →
  Project.id p = project_id →
  Project.configs p = Some d →
  dict_lookup d "project_config" = Some v →
  get_project_config ProjectConfig DEFAULT_PROJECT_CONFIG project_config_from_json
    db_session project_id w
  = (match project_config_from_json v with
     | Val cfg => Val (Result.resolve cfg)
     | Raise e => Raise e
     end, w).
Proof.
  intros Hok Hp Huniq Hid Hcfg Hv.
  unfold get_project_config, select_project, bind, ret, raise. rewrite Hok.
  destruct (List.find (fun p => String.eqb (Project.id p) project_id) (project_rows w))
    as [q|] eqn:Hfind.
  - apply find_some in Hfind as [Hq Hqid].
    apply list_elem_of_In in Hq. apply String.eqb_eq in Hqid.
    rewrite (Huniq q Hq Hqid). rewrite Hcfg. unfold lacks_project_config.
    destruct (dict_lookup_contains _ _ _ Hv) as [-> ->]. cbn.
    rewrite Hv. now destruct (project_config_from_json v).
  - exfalso. apply list_elem_of_In in Hp.
    pose proof (find_none _ _ Hfind p Hp) as Hne. cbn beta in Hne.
    apply String.eqb_neq in Hne. now apply Hne.
Qed.

End MoreProjectConfigProperties.

Lemma get_project_config_rejects_iff_missing_witness :
  ∃ r, result_of (get_project_config nat 0%nat (fun _ => Val 1%nat) the_session "p2")
         (world_of [] [Project.mk "p1" None]) = Val r
       ∧ Result.errors r ≠ [].
Proof.
  apply (proj2 (get_project_config_rejects_iff_missing nat 0%nat (fun _ => Val 1%nat)
                  the_session "p2" (world_of [] [Project.mk "p1" None]) eq_refl)).
  intros p Hp. apply list_elem_of_singleton in Hp. subst p. discriminate.
Defined.

Lemma get_project_config_uses_stored_config_witness :
  get_project_config nat 0%nat (fun _ => Val 1%nat) the_session "p1"
    (world_of [] [Project.mk "p1" (Some [("project_config", VDict [])])])
  = (Val (Result.resolve 1%nat),
     world_of [] [Project.mk "p1" (Some [("project_config", VDict [])])]).
Proof.
  apply (get_project_config_uses_stored_config nat 0%nat (fun _ => Val 1%nat)
           the_session "p1"
           (world_of [] [Project.mk "p1" (Some [("project_config", VDict [])])])
           (Project.mk "p1" (Some [("project_config", VDict [])]))
           [("project_config", VDict [])] (VDict []));
    try reflexivity.
  - apply list_elem_of_here.
  - intros q Hq _. now apply list_elem_of_singleton in Hq.
Defined.

(** ** Properties of the API server's validators *)

Module ApiFacts.
Import Api.

Lemma lstrip_empty_iff (s : string) : lstrip s = "" ↔ all_space s = true.
Proof.
  induction s as [|c s IH]; cbn; [easy|].
  destruct (is_space c); cbn; [exact IH | easy].
Qed.

Lemma lstrip_first (s : string) (c : ascii) :
  first_char (lstrip s) = Some c → is_space c = false.
Proof.
  induction s as [|c0 s IH]; cbn; [discriminate|].
  destruct (is_space c0) eqn:Hc0; [exact IH|].
  cbn. now intros [= <-].
Qed.

Lemma lstrip_fixed (s : string) :
  (∀ c, first_char s = Some c → is_space c = false) → lstrip s = s.
Proof.
  destruct s as [|c s]; [reflexivity|]. intros H. cbn.
  now rewrite (H c eq_refl).
Qed.

Lemma rstrip_empty_iff (s : string) : rstrip s = "" ↔ all_space s = true.
Proof.
  induction s as [|c s IH]; cbn; [easy|].
  destruct (rstrip s) as [|c' r].
  - destruct (is_space c); cbn; [|easy].
    split; [intros _; now apply IH | reflexivity].
  - split; [discriminate|]. intros H. apply andb_true_iff in H as [_ H].
    apply IH in H. discriminate H.
Qed.

Lemma rstrip_first (s : string) (c : ascii) :
  first_char s = Some c → is_space c = false → first_char (rstrip s) = Some c.
Proof.
  destruct s as [|c0 s]; cbn; [discriminate|]. intros [= ->] Hc.
  destruct (rstrip s); [now rewrite Hc | reflexivity].
Qed.

Lemma rstrip_last (s : string) (c : ascii) :
  last_char (rstrip s) = Some c → is_space c = false.
Proof.
  induction s as [|c0 s IH]; cbn [rstrip]; [discriminate|].
  destruct (rstrip s) as [|c' r].
  - destruct (is_space c0) eqn:Hc0; [discriminate|]. cbn. now intros [= <-].
  - exact IH.
Qed.

Lemma rstrip_idempotent (s : string) : rstrip (rstrip s) = rstrip s.
Proof.
  induction s as [|c s IH]; [reflexivity|]. cbn [rstrip].
  destruct (rstrip s) as [|c' r] eqn:Hr.
  - destruct (is_space c) eqn:Hc; [reflexivity|]. cbn. now rewrite Hc.
  - change (rstrip (String c (String c' r)))
      with (match rstrip (String c' r) with
            | EmptyString => if is_space c then EmptyString else String c EmptyString
            | String c'' r' => String c (String c'' r')
            end).
    now rewrite IH.
Qed.

Lemma strip_first (s : string) (c : ascii) :
  first_char (strip s) = Some c → is_space c = false.
Proof.
  unfold strip. destruct (lstrip s) as [|c0 t] eqn:Ht; [discriminate|].
  assert (Hc0 : is_space c0 = false) by (apply (lstrip_first s); now rewrite Ht).
  rewrite (rstrip_first (String c0 t) c0 eq_refl Hc0). now intros [= <-].
Qed.

Lemma strip_idempotent (s : string) : strip (strip s) = strip s.
Proof.
  unfold strip at 1. rewrite (lstrip_fixed (strip s)) by apply strip_first.
  unfold strip. apply rstrip_idempotent.
Qed.

Lemma strip_empty_iff (s : string) : strip s = "" ↔ all_space s = true.
Proof.
  unfold strip. split.
  - intros H. apply rstrip_empty_iff in H. apply lstrip_empty_iff.
    destruct (lstrip s) as [|c t] eqn:Ht; [reflexivity|].
    cbn in H. rewrite (lstrip_first s c) in H by now rewrite Ht. discriminate H.
  - intros H. apply lstrip_empty_iff in H. now rewrite H.
Qed.

Lemma nonempty_false (s : string) : nonempty s = false ↔ s = "".
Proof. destruct s; cbn; easy. Qed.

Lemma all_space_nonempty_strip (s : string) :
  all_space s = false → nonempty s = true ∧ nonempty (strip s) = true.
Proof.
  intros H. split.
  - destruct s; [discriminate H | reflexivity].
  - destruct (strip s) eqn:Hs; [|reflexivity].
    apply strip_empty_iff in Hs. congruence.
Qed.

(** X10: [validate_name] rejects exactly the names that are empty or all
    whitespace, with a [ValueError] naming the entity; every other name is
    accepted and returned stripped. *)
Theorem validate_name_rejects_iff_blank (entity v : string) :
  (all_space v = true →
   validate_name entity v
   = Err (ValueError (entity +:+ " name cannot be empty or whitespace only")))
  ∧ (all_space v = false → validate_name entity v = Ok (strip v)).
Proof.
  unfold validate_name. split; intros H.
  - apply strip_empty_iff in H. rewrite H. cbn. now rewrite orb_true_r.
  - destruct (all_space_nonempty_strip v H) as [-> ->]. reflexivity.
Qed.

Lemma validate_name_rejects_iff_blank_witness :
  validate_name "Project" "   " = Err (ValueError "Project name cannot be empty or whitespace only")
  ∧ validate_name "Space" "  docs " = Ok "docs".
Proof.
  split.
  - apply (proj1 (validate_name_rejects_iff_blank "Project" "   ")). reflexivity.
  - apply (proj2 (validate_name_rejects_iff_blank "Space" "  docs ")). reflexivity.
Defined.

(** X11: an accepted name is normalized.  It is not empty, it neither
    starts nor ends with whitespace, and validating it again (in any of the
    three classes) returns it unchanged. *)
Theorem validate_name_normalizes (entity entity' v s : string) :
  validate_name entity v = Ok s →
  s ≠ ""
  ∧ (∀ c, first_char s = Some c → is_space c = false)
  ∧ (∀ c, last_char s = Some c → is_space c = false)
  ∧ validate_name entity' s = Ok s.
Proof.
  unfold validate_name at 1.
  destruct (negb (nonempty v) || negb (nonempty (strip v))) eqn:Hblank; [discriminate|].
  intros [= <-].
  apply orb_false_iff in Hblank as [_ Hne]. apply negb_false_iff in Hne.
  assert (Hs : strip v ≠ "") by (intros Hs; rewrite Hs in Hne; discriminate Hne).
  split; [exact Hs|]. split; [apply strip_first|]. split; [apply rstrip_last|].
  unfold validate_name. rewrite strip_idempotent, Hne.
  now rewrite orb_false_r.
Qed.

Lemma validate_name_normalizes_witness :
  validate_name "Session" "docs" = Ok "docs".
Proof.
  apply (validate_name_normalizes "Space" "Session" "  docs " "docs"). reflexivity.
Defined.

(** X12: [validate_description] maps a missing, empty or all-whitespace
    description to [None] and every other one to its stripped text; the
    text it returns is never empty and never starts or ends with
    whitespace, and validating the result again changes nothing. *)
Theorem validate_description_normalizes (v : option string) :
  (validate_description v = None ↔ v = None ∨ ∃ s, v = Some s ∧ all_space s = true)
  ∧ (∀ s, validate_description v = Some s →
       s ≠ ""
       ∧ (∃ s0, v = Some s0 ∧ s = strip s0)
       ∧ (∀ c, first_char s = Some c → is_space c = false)
       ∧ (∀ c, last_char s = Some c → is_space c = false))
  ∧ validate_description (validate_description v) = validate_description v.
Proof.
  destruct v as [s0|]; cbn [validate_description].
  2:{ split; [split; [now left | reflexivity]|]. split; [discriminate | reflexivity]. }
  destruct (all_space s0) eqn:Hall.
  - pose proof (proj2 (strip_empty_iff s0) Hall) as Hs. rewrite Hs. cbn.
    split; [split; [intros _; right; now exists s0 | reflexivity]|].
    split; [discriminate | reflexivity].
  - destruct (all_space_nonempty_strip s0 Hall) as [Hne Hnes].
    assert (Hlen : Nat.eqb (String.length (strip s0)) 0 = false).
    { destruct (strip s0); [discriminate Hnes | reflexivity]. }
    rewrite Hlen, Hne.
    split; [split; [discriminate|]|].
    + intros [H|(s & [= <-] & H)]; congruence.
    + split.
      * intros s [= <-].
        split; [intros Hs; rewrite Hs in Hnes; discriminate Hnes|].
        split; [now exists s0|]. split; [apply strip_first | apply rstrip_last].
      * cbn [validate_description]. rewrite strip_idempotent, Hlen.
        destruct (strip s0); [discriminate Hnes | reflexivity].
Qed.

Lemma validate_description_normalizes_witness :
  validate_description (Some "   ") = None.
Proof.
  apply (proj2 (proj1 (validate_description_normalizes (Some "   ")))).
  right. exists "   ". split; reflexivity.
Defined.

End ApiFacts.

(** ** Properties of the API server's logging setup *)

Module ApiLoggingFacts.
Import Api.
Local Open Scope api_scope.

Lemma getLogger_run (key : string) (st : State) :
  ∃ x : Logger,
    getLogger key st = (Ok key, set_loggers (<[key := x]> (loggers st)) st)
    ∧ x = default {| name := key; level := NOTSET; handlers := [] |} (loggers st !! key).
Proof.
  unfold getLogger. destruct (loggers st !! key) as [x|] eqn:Hx.
  - exists x. split; [|reflexivity].
    rewrite (insert_id _ _ _ Hx). now destruct st.
  - eexists. split; reflexivity.
Qed.

Section Logging.

Variables BOLD BLUE END : string.

(** Once [LOG] is set, a call returns it and does nothing else. *)
Lemma get_global_logger_set (lvl : Z) (lg : LoggerRef) (st : State) :
  LOG st = Some lg → get_global_logger BOLD BLUE END lvl st = (Ok lg, st).
Proof.
  intros Hlog. unfold get_global_logger, lbind, get_LOG. now rewrite Hlog.
Qed.

(** The first call, with [LOG] unset: a new handler with the format is
    created, the logger registered under "acontext" gets the level and
    the handler, and [LOG] is bound to it. *)
Lemma get_global_logger_unset (lvl : Z) (st : State) :
  LOG st = None →
  get_global_logger BOLD BLUE END lvl st
  = (Ok "acontext",
     let x := default {| name := "acontext"; level := NOTSET; handlers := [] |}
                (loggers st !! "acontext") in
     let h := length (handler_heap st) in
     {| LOG := Some "acontext";
        loggers :=
          <["acontext" :=
              {| name := name x; level := lvl;
                 handlers := if existsb (Nat.eqb h) (handlers x) then handlers x
                             else handlers x ++ [h] |}]> (loggers st);
        handler_heap :=
          handler_heap st ++ [{| formatter := Some (log_format BOLD BLUE END) |}] |}).
Proof.
  intros Hlog. unfold get_global_logger, lbind at 1, get_LOG. rewrite Hlog.
  unfold lbind at 1, new_StreamHandler. unfold lbind at 1.
  match goal with
  | |- context [getLogger "acontext" ?s] =>
      destruct (getLogger_run "acontext" s) as (x & Hget & Hx); rewrite Hget
  end.
  cbn [loggers handler_heap LOG set_loggers] in *. subst x.
  unfold lbind, setLevel, addHandler, set_LOG, update_logger, set_loggers, lret.
  cbn [loggers handler_heap LOG].
  now rewrite !alter_insert_eq.
Qed.

(** X13: the logger is set up once.  Whatever the state, a call to
    [get_global_logger] followed by a second call with any other level
    returns the same logger both times, and the second call changes
    nothing: no second handler is added and the level of the first call
    stays. *)
Theorem get_global_logger_idempotent (lvl lvl' : Z) (st : State) :
  ∃ (lg : LoggerRef) (st' : State),
    get_global_logger BOLD BLUE END lvl st = (Ok lg, st')
    ∧ get_global_logger BOLD BLUE END lvl' st' = (Ok lg, st')
    ∧ LOG st' = Some lg.
Proof.
  destruct (LOG st) as [lg|] eqn:Hlog.
  - exists lg, st. rewrite !(get_global_logger_set _ lg st Hlog). now repeat split.
  - rewrite (get_global_logger_unset lvl st Hlog).
    eexists. eexists. split; [reflexivity|].
    split; [|reflexivity]. now apply get_global_logger_set.
Qed.

(** X14: after the module is imported, no run of calls to
    [get_global_logger], with whatever levels, changes anything; in a
    fresh interpreter the "acontext" logger then has the level INFO and
    exactly one handler, the one with the module's format. *)
Theorem import_log_then_calls (levels : list Z) (st : State) :
  call_all (get_global_logger BOLD BLUE END) levels (import_log BOLD BLUE END st) = (Ok tt, import_log BOLD BLUE END st)
  ∧ LOG (import_log BOLD BLUE END st) = Some "acontext"
  ∧ (loggers st = ∅ → handler_heap st = [] →
     loggers (import_log BOLD BLUE END st)
     = {[ "acontext" := {| name := "acontext"; level := INFO; handlers := [0] |} ]}
     ∧ handler_heap (import_log BOLD BLUE END st)
       = [{| formatter := Some (log_format BOLD BLUE END) |}]).
Proof.
  assert (Hlog : LOG (import_log BOLD BLUE END st) = Some "acontext").
  { unfold import_log. now rewrite get_global_logger_unset. }
  split; [|split; [exact Hlog|]].
  - induction levels as [|lvl levels IH]; [reflexivity|].
    cbn [call_all]. unfold lbind.
    now rewrite (get_global_logger_set lvl "acontext" _ Hlog).
  - intros Hempty Hheap. unfold import_log. rewrite get_global_logger_unset by reflexivity.
    cbn [snd loggers handler_heap]. rewrite Hempty, Hheap.
    rewrite lookup_empty. cbn. split; [|reflexivity].
    now rewrite insert_empty.
Qed.

End Logging.

Lemma import_log_then_calls_witness :
  loggers (import_log "" "" "" {| LOG := None; loggers := ∅; handler_heap := [] |})
  = {[ "acontext" := {| name := "acontext"; level := INFO; handlers := [0] |} ]}.
Proof.
  apply (proj2 (proj2 (import_log_then_calls "" "" "" []
                         {| LOG := None; loggers := ∅; handler_heap := [] |}))
           eq_refl eq_refl).
Defined.

(** What [configure_logging] does when [LOG] is a registered logger other
    than uvicorn's. *)
Lemma configure_logging_run (lg : LoggerRef) (x : Logger) (st : State) :
  LOG st = Some lg →
  lg ≠ "uvicorn.access" →
  loggers st !! lg = Some x →
  configure_logging st
  = (Ok tt,
     set_loggers
       (<["uvicorn.access" :=
            {| name := "acontext"; level := INFO; handlers := take 1 (handlers x) |}]>
          (loggers st)) st).
Proof.
  intros Hlog Hne Hx. unfold configure_logging. unfold lbind at 1.
  destruct (getLogger_run "uvicorn.access" st) as (u & Hget & _). rewrite Hget.
  unfold lbind, handlers_clear, set_name, get_LOG, LOG_handlers, addHandler, setLevel,
    update_logger, lret.
  cbn [loggers LOG set_loggers]. rewrite Hlog.
  rewrite !alter_insert_eq. rewrite lookup_insert_ne by congruence. rewrite Hx.
  destruct (handlers x) as [|h hs]; cbn [take existsb app handlers name level];
    unfold set_loggers; cbn [loggers LOG handler_heap];
    now rewrite ?alter_insert_eq.
Qed.

(** X15: after [configure_logging], whatever handlers, level and name the
    "uvicorn.access" logger had, it is named "acontext", has the level INFO
    and has as its only handler the first handler of [LOG] (none when
    [LOG] has none); every other logger, [LOG] among them, the global and
    the handler objects are as before. *)
Theorem configure_logging_post (lg : LoggerRef) (x : Logger) (st : State) :
  LOG st = Some lg →
  lg ≠ "uvicorn.access" →
  loggers st !! lg = Some x →
  ∃ st',
    configure_logging st = (Ok tt, st')
    ∧ loggers st' !! "uvicorn.access"
      = Some {| name := "acontext"; level := INFO; handlers := take 1 (handlers x) |}
    ∧ (∀ key, key ≠ "uvicorn.access" → loggers st' !! key = loggers st !! key)
    ∧ LOG st' = LOG st
    ∧ handler_heap st' = handler_heap st.
Proof.
  intros Hlog Hne Hx. eexists.
  split; [exact (configure_logging_run lg x st Hlog Hne Hx)|].
  cbn [set_loggers loggers LOG handler_heap].
  split; [apply lookup_insert_eq|]. split; [|now split].
  intros key Hkey. now apply lookup_insert_ne.
Qed.

Lemma configure_logging_post_witness :
  ∃ st',
    configure_logging
      {| LOG := Some "acontext";
         loggers := {[ "acontext" := {| name := "acontext"; level := INFO; handlers := [0] |} ]};
         handler_heap := [{| formatter := None |}] |}
    = (Ok tt, st')
    ∧ loggers st' !! "uvicorn.access"
      = Some {| name := "acontext"; level := INFO; handlers := [0] |}.
Proof.
  destruct (configure_logging_post "acontext"
              {| name := "acontext"; level := INFO; handlers := [0] |}
              {| LOG := Some "acontext";
                 loggers := {[ "acontext" := {| name := "acontext"; level := INFO;
                                                handlers := [0] |} ]};
                 handler_heap := [{| formatter := None |}] |})
    as (st' & Hrun & Hu & _).
  - reflexivity.
  - discriminate.
  - reflexivity.
  - exists st'. split; [exact Hrun | exact Hu].
Defined.

(** X16: [configure_logging] is idempotent: run a second time it returns
    normally and leaves the state exactly as the first run left it, so a
    repeated startup does not stack handlers on uvicorn's logger. *)
Theorem configure_logging_idempotent (lg : LoggerRef) (x : Logger) (st : State) :
  LOG st = Some lg →
  lg ≠ "uvicorn.access" →
  loggers st !! lg = Some x →
  ∃ st',
    configure_logging st = (Ok tt, st')
    ∧ configure_logging st' = (Ok tt, st').
Proof.
  intros Hlog Hne Hx. eexists.
  split; [exact (configure_logging_run lg x st Hlog Hne Hx)|].
  rewrite (configure_logging_run lg x).
  - unfold set_loggers. cbn [loggers LOG handler_heap]. now rewrite insert_insert_eq.
  - exact Hlog.
  - exact Hne.
  - cbn [set_loggers loggers]. rewrite lookup_insert_ne by congruence. exact Hx.
Qed.

Lemma configure_logging_idempotent_witness :
  ∃ st',
    configure_logging
      {| LOG := Some "acontext";
         loggers := {[ "acontext" := {| name := "acontext"; level := INFO; handlers := [0] |} ]};
         handler_heap := [{| formatter := None |}] |}
    = (Ok tt, st')
    ∧ configure_logging st' = (Ok tt, st').
Proof.
  apply (configure_logging_idempotent "acontext"
           {| name := "acontext"; level := INFO; handlers := [0] |}).
  - reflexivity.
  - discriminate.
  - reflexivity.
Defined.

(** X17: startup as a whole.  From any state of the logging registry,
    importing [telemetry/log.py] and then running [configure_logging]
    succeeds; afterwards uvicorn's access logger has exactly one handler,
    that handler is also a handler of the "acontext" logger, and the
    "acontext" logger is as the import left it. *)
Theorem startup_shares_one_handler (BOLD BLUE END : string) (st : State) :
  let st1 := import_log BOLD BLUE END st in
  ∃ (st2 : State) (x u : Logger) (h : HandlerRef),
    configure_logging st1 = (Ok tt, st2)
    ∧ loggers st1 !! "acontext" = Some x
    ∧ loggers st2 !! "acontext" = Some x
    ∧ level x = INFO
    ∧ loggers st2 !! "uvicorn.access" = Some u
    ∧ handlers u = [h]
    ∧ h ∈ handlers x
    ∧ name u = "acontext".
Proof.
  intros st1.
  assert (Hst1 : ∃ x, LOG st1 = Some "acontext" ∧ loggers st1 !! "acontext" = Some x
                      ∧ level x = INFO ∧ handlers x ≠ []).
  { subst st1. unfold import_log. rewrite get_global_logger_unset by reflexivity.
    cbn [snd LOG loggers handler_heap]. eexists. split; [reflexivity|].
    split; [apply lookup_insert_eq|]. split; [reflexivity|].
    cbn [handlers].
    destruct (existsb (Nat.eqb (length (handler_heap st)))
                (handlers (default {| name := "acontext"; level := NOTSET; handlers := [] |}
                             (loggers st !! "acontext")))) eqn:Hin.
    - intros Hnil. rewrite Hnil in Hin. discriminate Hin.
    - intros Hnil. now apply app_eq_nil in Hnil as [_ Hnil]. }
  destruct Hst1 as (x & Hlog & Hx & Hlevel & Hhs).
  assert (Hne : ("acontext" : string) ≠ "uvicorn.access") by discriminate.
  destruct (handlers x) as [|h hs] eqn:Hh; [congruence|].
  eexists. exists x. eexists. exists h.
  split; [exact (configure_logging_run "acontext" x st1 Hlog Hne Hx)|].
  cbn [set_loggers loggers].
  split; [exact Hx|].
  split; [rewrite lookup_insert_ne by congruence; exact Hx|].
  split; [exact Hlevel|].
  split; [apply lookup_insert_eq|].
  rewrite Hh. cbn. split; [reflexivity|]. split; [apply list_elem_of_here | reflexivity].
Qed.

End ApiLoggingFacts.

(** ** Properties of the log-line prefix *)

Module ApiLogLineFacts.
Import Api.

Lemma append_cons (c : ascii) (a b : string) : String c a +:+ b = String c (a +:+ b).
Proof. reflexivity. Qed.

Lemma append_nil (b : string) : "" +:+ b = b.
Proof. reflexivity. Qed.

Lemma uint_all_num (d : Decimal.uint) : all_num (NilEmpty.string_of_uint d) = true.
Proof. induction d; cbn; try reflexivity; exact IHd. Qed.

Lemma int_repr_all_num (z : Z) : all_num (int_repr z) = true.
Proof.
  unfold int_repr, NilZero.string_of_int, NilZero.string_of_uint.
  destruct (Z.to_int z) as [d|d]; destruct d; cbn; try reflexivity; apply uint_all_num.
Qed.

Lemma int_repr_inj (z z' : Z) : int_repr z = int_repr z' → z = z'.
Proof.
  unfold int_repr. intros H. apply to_int_inj.
  assert (Hnn : ∀ n : Z, Z.to_int n ≠ Decimal.Pos Decimal.Nil
                         ∧ Z.to_int n ≠ Decimal.Neg Decimal.Nil).
  { intros [|p|p]; cbn; split; try discriminate; intros [= Hp];
      exact (Unsigned.to_uint_nonnil p Hp). }
  destruct (Hnn z) as [H1 H2]. destruct (Hnn z') as [H1' H2'].
  pose proof (NilZero.isi _ H1 H2) as Hz.
  pose proof (NilZero.isi _ H1' H2') as Hz'.
  rewrite H in Hz. rewrite Hz in Hz'. now injection Hz'.
Qed.

(** Two numerals followed by something that no numeral starts with are
    told apart at the first character that is not of a numeral. *)
Lemma split_numeral (a : string) :
  ∀ (a' : string) (c c' : ascii) (r r' : string),
    all_num a = true → all_num a' = true →
    is_num_char c = false → is_num_char c' = false →
    a +:+ String c r = a' +:+ String c' r' →
    a = a' ∧ String c r = String c' r'.
Proof.
  induction a as [|x a IH]; intros [|x' a'] c c' r r' Ha Ha' Hc Hc'.
  - rewrite !append_nil. now intros ->.
  - rewrite append_nil, append_cons. intros [= -> _].
    cbn in Ha'. rewrite Hc in Ha'. discriminate Ha'.
  - rewrite append_nil, append_cons. intros [= -> _].
    cbn in Ha. rewrite Hc' in Ha. discriminate Ha.
  - rewrite !append_cons. intros [= -> Hrest].
    cbn in Ha, Ha'. apply andb_true_iff in Ha as [_ Ha]. apply andb_true_iff in Ha' as [_ Ha'].
    destruct (IH a' c c' r r' Ha Ha' Hc Hc' Hrest) as [-> Hr]. now split.
Qed.

Lemma L_int_form (p s : Z) (m : string) :
  L_ (VInt p) (VInt s) (VStr m)
  = String "{" (json_string "project_id" +:+ ": "
      +:+ int_repr p
      +:+ String "," (" " +:+ json_string "space_id" +:+ ": "
      +:+ int_repr s
      +:+ String "}" (String " " m))).
Proof.
  unfold L_. cbn [json_dumps py_str].
  repeat progress (rewrite ?append_assoc, ?append_cons, ?append_nil).
  reflexivity.
Qed.

(** X18: a log-line prefix identifies what it was built from.  For
    integer ids and message texts, two lines of [L_] are equal only when
    the project ids, the space ids and the messages are equal: the message
    text cannot make one line look like another project's or space's. *)
Theorem L_injective (p s p' s' : Z) (m m' : string) :
  L_ (VInt p) (VInt s) (VStr m) = L_ (VInt p') (VInt s') (VStr m') →
  p = p' ∧ s = s' ∧ m = m'.
Proof.
  rewrite !L_int_form. intros [= H]. rewrite !append_nil in H.
  apply split_numeral in H as [Hp [= Hrest]];
    try apply int_repr_all_num; try reflexivity.
  rewrite !append_nil in Hrest.
  apply split_numeral in Hrest as [Hs [= Hm]];
    try apply int_repr_all_num; try reflexivity.
  split; [exact (int_repr_inj _ _ Hp)|]. split; [exact (int_repr_inj _ _ Hs) | exact Hm].
Qed.

Lemma L_injective_witness :
  (7 = 7)%Z ∧ (42 = 42)%Z ∧ "created" = "created".
Proof.
  apply (L_injective 7 42 7 42 "created" "created"). reflexivity.
Defined.

(** A sample line: ids 7 and 42, message "created". *)
Example L_example :
  L_ (VInt 7) (VInt 42) (VStr "created")
  = String "{" (json_string "project_id" +:+ ": 7, " +:+ json_string "space_id"
                  +:+ ": 42} created").
Proof. reflexivity. Qed.

End ApiLogLineFacts.
